(** * Qualiscy: journal recommendation pipeline (app.py)

    A shallow embedding of the data-shaping functions of [app.py]:
    [load_revistas], [filtrar_revistas], [buscar_artigos_crossref],
    the prompt assembly of [gerar_relatorio_ia] and the button branch of
    [main].  Python objects are modelled by the inductive [value], Python
    exceptions by [exn], and the functions that touch the process state
    (the Streamlit cache, pandas objects, the network, the warnings shown)
    run in a state-and-exception monad over [World]. *)

From Stdlib Require Import ZArith String Ascii List.
From Stdlib Require Import Floats.SpecFloat.
From stdpp Require Import base list strings sorting.

Set Warnings "-register-all".

(** ** Python values and exceptions *)

Module Py.

(** The exceptions the code can meet; all derive from [Exception]. *)
Inductive exn :=
| RequestException (msg : string)
| HTTPError (status : Z)
| JSONDecodeError
| AttributeError (attr : string)
| TypeError
| IndexError
| KeyError (key : string)
| ValueError
| ReError (pat : string)
| OSError (msg : string)
| ParserError (msg : string)
| APIError (msg : string).

Inductive result (A : Type) :=
| Ok (a : A)
| Raise (e : exn).
Arguments Ok {A} a.
Arguments Raise {A} e.

Definition rbind {A B} (r : result A) (k : A -> result B) : result B :=
  match r with
  | Ok a => k a
  | Raise e => Raise e
  end.

(** What [json.loads] and a pandas cell can hold.  A [str] is kept as its
    UTF-8 bytes.  A [dict] is an association list read at the first binding
    of a key. *)
Inductive value :=
| VNone
| VBool (b : bool)
| VInt (z : Z)
| VFloat (f : spec_float)
| VStr (s : string)
| VList (l : list value)
| VDict (kvs : list (string * value)).

Definition dict := list (string * value).

Fixpoint lookup_key (k : string) (kvs : dict) : option value :=
  match kvs with
  | [] => None
  | (k', v) :: rest => if String.eqb k k' then Some v else lookup_key k rest
  end.

(** [bool(v)] *)
Definition truthy (v : value) : bool :=
  match v with
  | VNone => false
  | VBool b => b
  | VInt z => negb (z =? 0)%Z
  | VFloat (S754_zero _) => false
  | VFloat _ => true
  | VStr s => negb (String.eqb s "")
  | VList l => match l with [] => false | _ => true end
  | VDict kvs => match kvs with [] => false | _ => true end
  end.

(** [bool(s)] for [s : str | None] *)
Definition truthy_opt (s : option string) : bool :=
  match s with
  | Some s => negb (String.eqb s "")
  | None => false
  end.

(** [s or default] for [s : str | None] *)
Definition or_default (s : option string) (default : string) : string :=
  match s with
  | Some s => if String.eqb s "" then default else s
  | None => default
  end.

(** A byte of the form 10xxxxxx continues a UTF-8 code point. *)
Definition is_continuation (c : ascii) : bool :=
  let n := nat_of_ascii c in (Nat.leb 128 n && Nat.ltb n 192)%bool.

Definition starts_with_continuation (s : string) : bool :=
  match s with
  | String c _ => is_continuation c
  | EmptyString => false
  end.

(** The code points of a [str], each as a one-character [str]. *)
Fixpoint chars (s : string) : list string :=
  match s with
  | EmptyString => []
  | String c s' =>
      match chars s' with
      | x :: r =>
          if starts_with_continuation s' then String c x :: r
          else String c EmptyString :: x :: r
      | [] => [String c EmptyString]
      end
  end.

(** [v.get(k, default)] *)
Definition get (v : value) (k : string) (default : value) : result value :=
  match v with
  | VDict kvs =>
      match lookup_key k kvs with
      | Some x => Ok x
      | None => Ok default
      end
  | _ => Raise (AttributeError "get")
  end.

(** [v[k]] for a string key [k] *)
Definition getitem_key (v : value) (k : string) : result value :=
  match v with
  | VDict kvs =>
      match lookup_key k kvs with
      | Some x => Ok x
      | None => Raise (KeyError k)
      end
  | _ => Raise TypeError
  end.

(** [v[0]]: the first element of a list, the first character of a [str];
    a dict read from JSON has string keys only, so [0] is never a key. *)
Definition getitem_0 (v : value) : result value :=
  match v with
  | VList l =>
      match l with
      | x :: _ => Ok x
      | [] => Raise IndexError
      end
  | VStr s =>
      match chars s with
      | c :: _ => Ok (VStr c)
      | [] => Raise IndexError
      end
  | VDict _ => Raise (KeyError "0")
  | _ => Raise TypeError
  end.

(** The elements [for x in v] visits. *)
Definition iterate (v : value) : result (list value) :=
  match v with
  | VList l => Ok l
  | VDict kvs => Ok (map (fun kv => VStr (fst kv)) kvs)
  | VStr s => Ok (map VStr (chars s))
  | _ => Raise TypeError
  end.

(** The missing cell of pandas. *)
Definition NaN : value := VFloat S754_nan.

End Py.

(** ** textwrap.dedent *)

Module Textwrap.

Definition newline : ascii := "010"%char.

(** The class [[ \t]] of the two regular expressions of [textwrap]. *)
Definition is_blank (c : ascii) : bool :=
  (Ascii.eqb c " " || Ascii.eqb c "009")%bool.

(** Lines are separated by newline characters; a text has at least one. *)
Fixpoint split_lines (s : list ascii) : list (list ascii) :=
  match s with
  | [] => [[]]
  | c :: s' =>
      if Ascii.eqb c newline then [] :: split_lines s'
      else
        match split_lines s' with
        | l :: ls => (c :: l) :: ls
        | [] => [[c]]
        end
  end.

Fixpoint join_lines (ls : list (list ascii)) : list ascii :=
  match ls with
  | [] => []
  | [l] => l
  | l :: ls' => l ++ newline :: join_lines ls'
  end.

(** [_whitespace_only_re.sub('', text)]: a line of blanks becomes empty. *)
Definition normalize (l : list ascii) : list ascii :=
  if forallb is_blank l then [] else l.

(** The leading blanks of a line, the group of [_leading_whitespace_re]. *)
Fixpoint indent (l : list ascii) : list ascii :=
  match l with
  | c :: l' => if is_blank c then c :: indent l' else []
  | [] => []
  end.

Fixpoint common_prefix (a b : list ascii) : list ascii :=
  match a, b with
  | x :: a', y :: b' => if Ascii.eqb x y then x :: common_prefix a' b' else []
  | _, _ => []
  end.

(** The loop over [indents]: each of its three branches leaves in [margin]
    the longest common prefix of [margin] and [indent]. *)
Definition margin_of (indents : list (list ascii)) : list ascii :=
  match indents with
  | [] => []
  | i :: rest => fold_left common_prefix rest i
  end.

Fixpoint strip_prefix (m l : list ascii) : option (list ascii) :=
  match m, l with
  | [], _ => Some l
  | x :: m', y :: l' => if Ascii.eqb x y then strip_prefix m' l' else None
  | _ :: _, [] => None
  end.

(** [re.sub(r'(?m)^' + margin, '', text)] on one line. *)
Definition remove_margin (m l : list ascii) : list ascii :=
  match strip_prefix m l with
  | Some l' => l'
  | None => l
  end.

Definition has_text (l : list ascii) : bool :=
  match l with
  | [] => false
  | _ => true
  end.

Definition dedent_chars (text : list ascii) : list ascii :=
  let lines := map normalize (split_lines text) in
  let indents := map indent (List.filter has_text lines) in
  let margin := margin_of indents in
  join_lines (map (remove_margin margin) lines).

Definition dedent (text : string) : string :=
  string_of_list_ascii (dedent_chars (list_ascii_of_string text)).

End Textwrap.


(** ** Library behaviour taken from the runtime

    Functions of the Python and NumPy libraries whose result the code only
    passes on: [repr], [str.strip], [str.lower], the compilation of a
    pattern with [re.IGNORECASE] ([None] when [re.error] is raised,
    otherwise the test [search(s) is not None]), and [ndarray.argsort].
    pandas sorts with NumPy's default kind, which is not stable, so
    [np_argsort] is any function returning the positions in an order that
    sorts the keys. *)
Class Runtime := {
  py_repr : Py.value -> string;
  str_strip : string -> string;
  str_lower : string -> string;
  re_compile_ci : string -> option (string -> bool);
  np_argsort : list nat -> list nat;
  np_argsort_perm : forall ks, np_argsort ks ≡ₚ seq 0 (length ks);
  np_argsort_sorted : forall ks,
    StronglySorted le (map (fun i => nth i ks 0) (np_argsort ks))
}.

(** ** The part of pandas the code uses *)

Module Pandas.
Import Py.

(** A row keeps the label it has in the index of the frame it came from. *)
Record Row := { label : nat; cells : list value }.

Record DataFrame := { columns : list string; rows : list Row }.

Definition empty_frame : DataFrame := {| columns := []; rows := [] |}.

(** The positions at which [cols] holds [name], counted from [i]. *)
Fixpoint positions (name : string) (cols : list string) (i : nat) : list nat :=
  match cols with
  | [] => []
  | c :: cols' =>
      if String.eqb c name then i :: positions name cols' (S i)
      else positions name cols' (S i)
  end.

(** [name in df.columns] *)
Definition has_column (name : string) (df : DataFrame) : bool :=
  existsb (String.eqb name) (columns df).

Definition cell_at (i : nat) (r : Row) : value := nth i (cells r) NaN.

Definition column_at (i : nat) (df : DataFrame) : list value :=
  map (cell_at i) (rows df).

Definition is_str (v : value) : bool :=
  match v with
  | VStr _ => true
  | _ => false
  end.

(** The [.str] accessor accepts an object column: in a frame read by
    [read_csv] that is a column with a text cell, or a column of a frame
    without rows; a column of numbers, booleans or only missing cells gets
    a numeric dtype and [.str] raises [AttributeError]. *)
Definition str_accessor_ok (col : list value) : bool :=
  match col with
  | [] => true
  | _ => existsb is_str col
  end.

(** One cell of [.str.contains(pat, case=False, na=False)]: a missing or
    non-text cell gives NaN, which [na=False] turns into [False]. *)
Definition contains_cell (found : string -> bool) (v : value) : bool :=
  match v with
  | VStr s => found s
  | _ => false
  end.

Fixpoint index_of (s : string) (l : list string) (i : nat) : option nat :=
  match l with
  | [] => None
  | x :: l' => if String.eqb x s then Some i else index_of s l' (S i)
  end.

(** The code of a cell in a categorical with the given categories; a cell
    that is not one of them has none (pandas stores -1 and shows NaN). *)
Definition code (categories : list string) (v : value) : option nat :=
  match v with
  | VStr s => index_of s categories 0
  | _ => None
  end.

(** One cell of [.astype(CategoricalDtype(categories, ordered=True))]. *)
Definition to_category (categories : list string) (v : value) : value :=
  match code categories v with
  | Some _ => v
  | None => NaN
  end.

(** [df.take(indexer)] on the rows. *)
Definition take_rows (indexer : list nat) (rs : list Row) : list Row :=
  omap (fun i => rs !! i) indexer.

(** [zip(range(i, ...), l)] *)
Fixpoint enumerate {A} (i : nat) (l : list A) : list (nat * A) :=
  match l with
  | [] => []
  | x :: l' => (i, x) :: enumerate (S i) l'
  end.

(** A position with its key when the key is there ([idx[~mask]] and
    [items[~mask]]), and a position whose key is missing
    ([np.nonzero(mask)]). *)
Definition present (ic : nat * option nat) : option (nat * nat) :=
  match snd ic with
  | Some k => Some (fst ic, k)
  | None => None
  end.

Definition missing (ic : nat * option nat) : option nat :=
  match snd ic with
  | Some _ => None
  | None => Some (fst ic)
  end.

Section WithRuntime.
Context `{RT : Runtime}.

(** [df[name].str.contains(pat, case=False, na=False)].  When the label is
    repeated [df[name]] is a frame, which has no [.str]. *)
Definition str_contains (df : DataFrame) (name pat : string)
  : result (list bool) :=
  match positions name (columns df) 0 with
  | [] => Raise (KeyError name)
  | [i] =>
      let col := column_at i df in
      if str_accessor_ok col then
        match re_compile_ci pat with
        | Some found => Ok (map (contains_cell found) col)
        | None => Raise (ReError pat)
        end
      else Raise (AttributeError "str")
  | _ => Raise (AttributeError "str")
  end.

(** [nargsort] with [na_position='last']: the positions of the present
    keys in the order [argsort] puts these keys, then the positions of
    the missing ones as they stand. *)
Definition nargsort (codes : list (option nat)) : list nat :=
  let items := enumerate 0 codes in
  let non_nan := omap present items in
  let nan_idx := omap missing items in
  let non_nan_idx := map fst non_nan in
  let non_nans := map snd non_nan in
  map (fun j => nth j non_nan_idx 0) (np_argsort non_nans) ++ nan_idx.

(** [df.sort_values(name)] on a categorical column: the rows taken in the
    order of [nargsort] over the codes; a label that is not unique raises
    [ValueError]. *)
Definition sort_values (name : string) (categories : list string)
    (df : DataFrame) : result DataFrame :=
  match positions name (columns df) 0 with
  | [] => Raise (KeyError name)
  | [i] =>
      let codes := map (code categories) (column_at i df) in
      Ok {| columns := columns df;
            rows := take_rows (nargsort codes) (rows df) |}
  | _ => Raise ValueError
  end.

End WithRuntime.

(** [mask1 & mask2] *)
Fixpoint mask_and (m1 m2 : list bool) : list bool :=
  match m1, m2 with
  | b1 :: m1', b2 :: m2' => (b1 && b2)%bool :: mask_and m1' m2'
  | _, _ => []
  end.

(** The rows of [df[mask]]. *)
Fixpoint select_rows (mask : list bool) (rs : list Row) : list Row :=
  match mask, rs with
  | b :: mask', r :: rs' => if b then r :: select_rows mask' rs' else select_rows mask' rs'
  | _, _ => []
  end.

(** The cells of a row with [f] applied under every column called [name]. *)
Fixpoint update_named (name : string) (f : value -> value)
    (cols : list string) (cs : list value) : list value :=
  match cols, cs with
  | col :: cols', c :: cs' =>
      (if String.eqb col name then f c else c) :: update_named name f cols' cs'
  | _, _ => cs
  end.

(** A row with its cells under [name] made categorical. *)
Definition astype_row (name : string) (categories : list string)
    (cols : list string) (r : Row) : Row :=
  {| label := label r;
     cells := update_named name (to_category categories) cols (cells r) |}.

(** [df[name] = df[name].astype(cat_type)] as a new frame value. *)
Definition astype_category (name : string) (categories : list string)
    (df : DataFrame) : DataFrame :=
  {| columns := columns df;
     rows := map (astype_row name categories (columns df)) (rows df) |}.

(** [d[k] = v]: a key keeps the place of its first insertion. *)
Fixpoint dict_set (k : string) (v : value) (d : dict) : dict :=
  match d with
  | [] => [(k, v)]
  | (k', v') :: d' =>
      if String.eqb k k' then (k, v) :: d' else (k', v') :: dict_set k v d'
  end.

(** [dict(zip(cols, cs))], built from the left. *)
Fixpoint record_from (d : dict) (cols : list string) (cs : list value) : dict :=
  match cols, cs with
  | col :: cols', c :: cs' => record_from (dict_set col c d) cols' cs'
  | _, _ => d
  end.

Definition record_of (cols : list string) (cs : list value) : dict :=
  record_from [] cols cs.

(** [df.to_dict(orient="records")] *)
Definition to_records (df : DataFrame) : list value :=
  map (fun r => VDict (record_of (columns df) (cells r))) (rows df).

End Pandas.

Import Py Pandas.

(** ** The process state and the outside world *)

(** A warning shown with [st.warning]. *)
Inductive aviso :=
| AvisoCrossref (e : exn)
| AvisoSemRevistas.

Record mensagem := { role : string; content : string }.

(** A pandas object lives in [heap] at its position.  [cache] is the value
    [st.cache_data] keeps for [load_revistas]; it stores the pickled result
    and every call gets an object of its own.  [requests] are the calls
    made to the search endpoint, [avisos] the warnings shown and [chats]
    the message lists sent to the text-generation service. *)
Record World := {
  cache : option DataFrame;
  heap : list DataFrame;
  requests : list (string * Z);
  avisos : list aviso;
  chats : list (list mensagem)
}.

(** What [requests.get] gives: an exception, or a response with a status
    and the outcome of [resp.json()]. *)
Inductive response :=
| RequestFails (e : exn)
| Response (status : Z) (json : result value).

(** The collaborators: the CSV file as [pd.read_csv(DATA_PATH)] reads it,
    the search endpoint (asked with a query and a row count) and the
    text-generation service. *)
Record Env := {
  read_csv : result DataFrame;
  http_get : string -> Z -> response;
  chat_create : list mensagem -> result string
}.

(** ** State and exceptions *)

Definition M (A : Type) : Type := World -> result A * World.

Definition ret {A} (a : A) : M A := fun w => (Ok a, w).

Definition raise {A} (e : exn) : M A := fun w => (Raise e, w).

Definition bind {A B} (m : M A) (k : A -> M B) : M B :=
  fun w =>
    match m w with
    | (Ok a, w') => k a w'
    | (Raise e, w') => (Raise e, w')
    end.

(** [try: m except Exception as e: h e] *)
Definition try_except {A} (m : M A) (h : exn -> M A) : M A :=
  fun w =>
    match m w with
    | (Ok a, w') => (Ok a, w')
    | (Raise e, w') => h e w'
    end.

Definition lift {A} (r : result A) : M A := fun w => (r, w).

Notation "x <- m ;; k" := (bind m (fun x => k))
  (at level 100, m at next level, right associativity).
Notation "m ;; k" := (bind m (fun _ => k))
  (at level 100, right associativity).

(** A reference to a pandas object: its position in the heap. *)
Definition loc := nat.

(** A new object; nothing is ever freed, so positions stay valid. *)
Definition alloc (df : DataFrame) : M loc :=
  fun w =>
    (Ok (length (heap w)),
     {| cache := cache w; heap := heap w ++ [df]; requests := requests w;
        avisos := avisos w; chats := chats w |}).

(** The value of the object at [l]; the code only reads positions given
    out by [alloc], the other case is there to make the function total. *)
Definition deref (l : loc) (w : World) : DataFrame :=
  match heap w !! l with
  | Some df => df
  | None => empty_frame
  end.

Definition read (l : loc) : M DataFrame := fun w => (Ok (deref l w), w).

(** The object at [l] changed in place. *)
Definition write (l : loc) (df : DataFrame) : M unit :=
  fun w =>
    (Ok tt,
     {| cache := cache w; heap := <[l := df]> (heap w); requests := requests w;
        avisos := avisos w; chats := chats w |}).

Definition get_cache : M (option DataFrame) := fun w => (Ok (cache w), w).

Definition put_cache (df : DataFrame) : M unit :=
  fun w =>
    (Ok tt,
     {| cache := Some df; heap := heap w; requests := requests w;
        avisos := avisos w; chats := chats w |}).

Definition st_warning (a : aviso) : M unit :=
  fun w =>
    (Ok tt,
     {| cache := cache w; heap := heap w; requests := requests w;
        avisos := avisos w ++ [a]; chats := chats w |}).

(** ** The functions of app.py *)

Definition ordem_qualis : list string :=
  ["A1"; "A2"; "A3"; "A4"; "B1"; "B2"; "B3"; "B4"; "C"]%string.

(** One normalised search result, the dict built at lines 98-103. *)
Record artigo := {
  titulo : value;
  ano : value;
  doi : value;
  link : option string
}.

Definition dict_of_artigo (a : artigo) : value :=
  VDict [("titulo"%string, titulo a); ("ano"%string, ano a);
         ("doi"%string, doi a);
         ("link"%string, match link a with Some s => VStr s | None => VNone end)].

(** [it[key]["date-parts"][0][0]] *)
Definition date_year (d : value) : result value :=
  rbind (getitem_key d "date-parts") (fun dp =>
  rbind (getitem_0 dp) (fun first =>
  getitem_0 first)).

(** The loop of lines 88-95 over the remaining [keys]: the first key that
    is in [it] and whose date is read without an exception ends the loop;
    an exception is dropped and the next key is tried. *)
Fixpoint extrair_ano (it : dict) (keys : list string) : value :=
  match keys with
  | [] => VNone
  | key :: rest =>
      match lookup_key key it with
      | Some d =>
          match date_year d with
          | Ok y => y
          | Raise _ => extrair_ano it rest
          end
      | None => extrair_ano it rest
      end
  end.

Definition chaves_de_data : list string :=
  ["published-print"; "published-online"; "issued"]%string.

(** [raise_for_status]: a status from 400 to 599 raises [HTTPError]. *)
Definition raise_for_status (status : Z) : result unit :=
  if ((400 <=? status)%Z && (status <? 600)%Z)%bool then Raise (HTTPError status)
  else Ok tt.

(** The text before [{area}]. *)
Definition prompt_intro : string :=
"
    Você é um consultor científico especializado em avaliação de periódicos
    e estratégias de publicação, com foco no sistema Qualis brasileiro.

    Contexto do aluno:
    - Área principal do artigo: ".

(** The text between [{area}] and the sub-topic. *)
Definition prompt_subarea : string :=
"
    - Subárea / tema específico: ".

(** The text between the sub-topic and the keywords. *)
Definition prompt_palavras : string :=
"
    - Palavras-chave fornecidas pelo aluno: ".

(** The text between the keywords and [{revistas_records}]. *)
Definition prompt_revistas : string :=
"

    Revistas disponíveis (dados da base interna):
    ".

(** The text between [{revistas_records}] and [{artigos}]. *)
Definition prompt_artigos : string :=
"

    Artigos encontrados a partir das palavras-chave (se houver):
    ".

(** The text after [{artigos}]: the task, its seven sections and the rules under IMPORTANTE. *)
Definition prompt_tarefa : string :=
"

    TAREFA:
    Monte um RELATÓRIO ESTRUTURADO em português, com as seguintes seções:

    1. Visão geral da área e subárea
       - Explique em 1 parágrafo curto o foco da área/subárea informada.

    2. Melhores revistas para publicação
       - Liste as principais revistas indicadas, com:
         * nome do periódico
         * estrato Qualis (se disponível)
         * breve descrição do foco/escopo
         * em que tipo de trabalho elas costumam aceitar (ex.: relatos de caso, artigos originais, revisões, etc.)
         * link do site ou do sistema de submissão (se o campo 'link_site' ou similar existir nos dados)

    3. Template e instruções para submissão
       - Para cada revista listada, indique:
         * se há link ou informação de template/instruções aos autores nos dados fornecidos
         * oriente o aluno sobre onde encontrar essas informações no site da revista
         * explique brevemente quais são os pontos críticos de formatação a observar (tamanho do resumo, número de palavras, estrutura IMRAD, normas de citação, etc.)

    4. Artigos mais relevantes na temática
       - Caso haja artigos na seção 'artigos encontrados':
         * selecione até 10 mais relevantes
         * apresente em lista com: título, ano e DOI/link
         * comente, em 1–2 frases, o foco principal de cada artigo.

    5. Principais palavras-chave da área
       - Com base nos artigos listados e na temática:
         * indique um conjunto de 8 a 15 palavras-chave sugeridas em português
         * se possível, sugira também versão em inglês entre parênteses.

    6. O que está sendo pesquisado atualmente
       - Descreva em 2–4 parágrafos:
         * principais linhas de pesquisa atuais na área/subárea
         * lacunas frequentes (o que ainda falta estudar)
         * tendências emergentes.

    7. Sugestão de organização do artigo do aluno
       - Proponha uma estrutura de artigo (tópicos numerados) incluindo:
         * título provisório
         * sugestão de resumo (em 1 parágrafo)
         * tópicos da introdução (em forma de itens)
         * possíveis objetivos geral e específicos
         * sugestão de estrutura para métodos, resultados e discussão
         * considerações finais e implicações práticas.

    IMPORTANTE:
    - Use linguagem clara, direta, sem floreios desnecessários.
    - Não invente DOI ou revistas; use apenas os dados fornecidos.
    - Se alguma informação não estiver disponível nos dados, deixe claro que não foi fornecida e faça uma orientação genérica.
    ".

Definition system_content : string :=
  "Você é um consultor de publicação científica extremamente objetivo, " +:+
  "especializado em Qualis brasileiro, escolha de periódicos e estratégia de publicação.".

Section App.
Context `{RT : Runtime} (env : Env).

Definition normalizar_colunas (cols : list string) : list string :=
  map (fun c => str_lower (str_strip c)) cols.

(** The body of [load_revistas], lines 30-33. *)
Definition load_revistas_body : M loc :=
  df0 <- lift (read_csv env) ;;
  df <- alloc df0 ;;
  d <- read df ;;
  write df {| columns := normalizar_colunas (columns d); rows := rows d |} ;;
  ret df.

(** [load_revistas] under [@st.cache_data]: a hit hands out a new object
    holding the cached value, a miss runs the body and keeps its result. *)
Definition load_revistas : M loc :=
  c <- get_cache ;;
  match c with
  | Some v => alloc v
  | None =>
      df <- load_revistas_body ;;
      v <- read df ;;
      put_cache v ;;
      ret df
  end.

(** Lines 38-45: the mask over the rows of the catalog. *)
Definition mascara (d : DataFrame) (area : string) (subarea : option string)
  : result (list bool) :=
  rbind (str_contains d "area" area) (fun mask =>
  if truthy_opt subarea then
    let sub := or_default subarea "" in
    if has_column "escopo" d then
      rbind (str_contains d "escopo" sub) (fun m => Ok (mask_and mask m))
    else if has_column "subarea" d then
      rbind (str_contains d "subarea" sub) (fun m => Ok (mask_and mask m))
    else Ok mask
  else Ok mask).

Definition filtrar_revistas (area : string) (subarea : option string) : M loc :=
  df <- load_revistas ;;
  d <- read df ;;
  mask <- lift (mascara d area subarea) ;;
  sel <- alloc {| columns := columns d; rows := select_rows mask (rows d) |} ;;
  s <- read sel ;;
  filtrado <- alloc s ;;
  f <- read filtrado ;;
  if has_column "estrato_qualis" f then
    write filtrado (astype_category "estrato_qualis" ordem_qualis f) ;;
    f' <- read filtrado ;;
    sorted <- lift (sort_values "estrato_qualis" ordem_qualis f') ;;
    alloc sorted
  else ret filtrado.

(** [str(v)] as an f-string shows [v]. *)
Definition py_str (v : value) : string :=
  match v with
  | VStr s => s
  | _ => py_repr v
  end.

(** Lines 83-104: one pass of the loop over [items]. *)
Definition normalizar_item (it : value) : result artigo :=
  rbind (get it "title" (VList [VStr "Sem título"])) (fun t =>
  rbind (getitem_0 t) (fun titulo =>
  rbind (get it "DOI" VNone) (fun doi =>
  let link := if truthy doi then Some ("https://doi.org/" +:+ py_str doi)
              else None in
  let ano := match it with
             | VDict kvs => extrair_ano kvs chaves_de_data
             | _ => VNone
             end in
  Ok {| titulo := titulo; ano := ano; doi := doi; link := link |}))).

Fixpoint normalizar_itens (items : list value) : result (list artigo) :=
  match items with
  | [] => Ok []
  | it :: rest =>
      rbind (normalizar_item it) (fun a =>
      rbind (normalizar_itens rest) (fun r => Ok (a :: r)))
  end.

(** [requests.get(base_url, params=params, timeout=20)] *)
Definition requests_get (query : string) (n : Z) : M (Z * result value) :=
  fun w =>
    let w' := {| cache := cache w; heap := heap w;
                 requests := requests w ++ [(query, n)];
                 avisos := avisos w; chats := chats w |} in
    match http_get env query n with
    | RequestFails e => (Raise e, w')
    | Response status json => (Ok (status, json), w')
    end.

(** The [try] block, lines 73-76. *)
Definition buscar_items (query : string) (n : Z) : M value :=
  resp <- requests_get query n ;;
  lift (raise_for_status (fst resp)) ;;
  body <- lift (snd resp) ;;
  message <- lift (get body "message" (VDict [])) ;;
  lift (get message "items" (VList [])).

Definition buscar_artigos_crossref (query : string) (n : Z) : M (list artigo) :=
  if String.eqb query "" then ret []
  else
    r <- try_except
           (items <- buscar_items query n ;; ret (inl items))
           (fun e => st_warning (AvisoCrossref e) ;; ret (inr [])) ;;
    match r with
    | inr early => ret early
    | inl items =>
        its <- lift (iterate items) ;;
        lift (normalizar_itens its)
    end.

(** The f-string of lines 125-190. *)
Definition user_prompt (area : string) (subarea palavras_chave : option string)
    (revistas_records : list value) (artigos : list artigo) : string :=
  prompt_intro +:+ area +:+
  prompt_subarea +:+ or_default subarea "não informado" +:+
  prompt_palavras +:+ or_default palavras_chave "não informado" +:+
  prompt_revistas +:+ py_repr (VList revistas_records) +:+
  prompt_artigos +:+ py_repr (VList (map dict_of_artigo artigos)) +:+
  prompt_tarefa.

(** Lines 123-201: the message list handed to the service. *)
Definition montar_mensagens (area : string) (subarea : option string)
    (revistas : DataFrame) (artigos : list artigo)
    (palavras_chave : option string) : list mensagem :=
  let revistas_records := to_records revistas in
  [ {| role := "system"; content := system_content |};
    {| role := "user";
       content := Textwrap.dedent
                    (user_prompt area subarea palavras_chave
                       revistas_records artigos) |} ].

(** [client.chat.completions.create(...)] and the text of its first choice. *)
Definition chat_completions_create (messages : list mensagem) : M string :=
  fun w =>
    (chat_create env messages,
     {| cache := cache w; heap := heap w; requests := requests w;
        avisos := avisos w; chats := chats w ++ [messages] |}).

Definition gerar_relatorio_ia (area : string) (subarea : option string)
    (revistas : loc) (artigos : list artigo) (palavras_chave : option string)
  : M string :=
  r <- read revistas ;;
  chat_completions_create (montar_mensagens area subarea r artigos palavras_chave).

(** [df.empty] *)
Definition frame_empty (df : DataFrame) : bool :=
  match columns df, rows df with
  | _ :: _, _ :: _ => false
  | _, _ => true
  end.

(** The three steps of [main] under the button, lines 262-284; [subarea]
    and [palavras_chave] are the texts of the two input widgets. *)
Definition pipeline (area subarea palavras_chave : string) (num_artigos : Z)
  : M (loc * list artigo * string) :=
  revistas <- filtrar_revistas area (Some subarea) ;;
  r <- read revistas ;;
  (if frame_empty r then st_warning AvisoSemRevistas else ret tt) ;;
  artigos <- (if negb (String.eqb (str_strip palavras_chave) "") then
                buscar_artigos_crossref
                  (area +:+ " " +:+ or_default (Some subarea) "" +:+ " " +:+
                   palavras_chave)
                  num_artigos
              else ret []) ;;
  relatorio <- gerar_relatorio_ia area (Some subarea) revistas artigos
                 (Some palavras_chave) ;;
  ret (revistas, artigos, relatorio).

End App.

(** ** A runtime and collaborators for the examples

    ASCII-only [strip] and [lower]; a pattern engine for plain words (a
    pattern with a metacharacter is refused); positions sorted by
    [merge_sort]. *)

Module Exemplo.

Definition lower_char (c : ascii) : ascii :=
  let n := nat_of_ascii c in
  if (Nat.leb 65 n && Nat.leb n 90)%bool then ascii_of_nat (n + 32) else c.

Fixpoint lower (s : string) : string :=
  match s with
  | EmptyString => EmptyString
  | String c s' => String (lower_char c) (lower s')
  end.

Definition is_space (c : ascii) : bool :=
  let n := nat_of_ascii c in
  (Nat.eqb n 32 || (Nat.leb 9 n && Nat.leb n 13))%bool.

Fixpoint lstrip (s : string) : string :=
  match s with
  | String c s' => if is_space c then lstrip s' else s
  | EmptyString => EmptyString
  end.

Fixpoint rstrip (s : string) : string :=
  match s with
  | EmptyString => EmptyString
  | String c s' =>
      match rstrip s' with
      | EmptyString => if is_space c then EmptyString else String c EmptyString
      | r => String c r
      end
  end.

Definition strip (s : string) : string := rstrip (lstrip s).

Fixpoint infixb (p s : string) : bool :=
  (String.prefix p s ||
   match s with
   | String _ s' => infixb p s'
   | EmptyString => false
   end)%bool.

Definition is_meta (c : ascii) : bool :=
  existsb (Ascii.eqb c) (list_ascii_of_string ".^$*+?{}[]\|()").

Definition compile_ci (pat : string) : option (string -> bool) :=
  if existsb is_meta (list_ascii_of_string pat) then None
  else Some (fun s => infixb (lower pat) (lower s)).

Definition key_le (ks : list nat) (i j : nat) : Prop :=
  nth i ks 0 <= nth j ks 0.

#[local] Instance key_le_dec ks i j : Decision (key_le ks i j).
Proof. unfold key_le. apply _. Defined.

Definition argsort (ks : list nat) : list nat :=
  merge_sort (key_le ks) (seq 0 (length ks)).

Definition repr (v : value) : string :=
  match v with
  | VNone => "None"
  | VBool true => "True"
  | VBool false => "False"
  | VStr s => "'" +:+ s +:+ "'"
  | VList [] => "[]"
  | _ => "..."
  end.

Lemma argsort_perm ks : argsort ks ≡ₚ seq 0 (length ks).
Proof. apply merge_sort_Permutation. Qed.

Lemma argsort_sorted ks :
  StronglySorted le (map (fun i => nth i ks 0) (argsort ks)).
Proof.
  unfold argsort.
  apply (StronglySorted_fmap _ (key_le ks)).
  - intros i j Hij. exact Hij.
  - apply StronglySorted_merge_sort.
    + intros i j k. unfold key_le. lia.
    + intros i j. unfold key_le. lia.
Qed.

End Exemplo.

Definition runtime_exemplo : Runtime :=
  {| py_repr := Exemplo.repr;
     str_strip := Exemplo.strip;
     str_lower := Exemplo.lower;
     re_compile_ci := Exemplo.compile_ci;
     np_argsort := Exemplo.argsort;
     np_argsort_perm := Exemplo.argsort_perm;
     np_argsort_sorted := Exemplo.argsort_sorted |}.

(** ** Derived notions used in the statements *)

(** The frame a call returns, read from the heap it leaves. *)
Definition run_filtrar `{RT : Runtime} (env : Env) (area : string)
    (subarea : option string) (w : World) : result DataFrame :=
  match filtrar_revistas env area subarea w with
  | (Ok l, w') => Ok (deref l w')
  | (Raise e, _) => Raise e
  end.

(** The frame a call of [load_revistas] returns, read from the heap it
    leaves. *)
Definition run_load `{RT : Runtime} (env : Env) (w : World) : result DataFrame :=
  match load_revistas env w with
  | (Ok l, w') => Ok (deref l w')
  | (Raise e, _) => Raise e
  end.

(** The catalog as the file gives it: read and with its column names
    normalised. *)
Definition ler_arquivo `{RT : Runtime} (env : Env) : result DataFrame :=
  rbind (read_csv env) (fun d0 =>
  Ok {| columns := normalizar_colunas (columns d0); rows := rows d0 |}).

(** The catalog a call of [load_revistas] observes in [w]: the cached
    value, or else the one of the file. *)
Definition catalogo `{RT : Runtime} (env : Env) (w : World) : result DataFrame :=
  match cache w with
  | Some v => Ok v
  | None => ler_arquivo env
  end.

(** The frame [filtrar_revistas] computes from the catalog [d], as a value. *)
Definition filtrar_valor `{RT : Runtime} (d : DataFrame) (area : string)
    (subarea : option string) : result DataFrame :=
  rbind (mascara d area subarea) (fun mask =>
  let f := {| columns := columns d; rows := select_rows mask (rows d) |} in
  if has_column "estrato_qualis" f then
    sort_values "estrato_qualis" ordem_qualis
      (astype_category "estrato_qualis" ordem_qualis f)
  else Ok f).

(** The world [w] with another cache and heap. *)
Definition com_catalogo (w : World) (c : option DataFrame)
    (h : list DataFrame) : World :=
  {| cache := c; heap := h; requests := requests w; avisos := avisos w;
     chats := chats w |}.


(** [needle in s] *)
Definition contains (s needle : string) : Prop :=
  exists before after, s = before +:+ needle +:+ after.

(** Three lines of the task, without their indentation: use only the data
    given and invent neither a DOI nor a journal; say so when a piece of
    information is not in the data; pick at most 10 articles. *)
Definition regra_apenas_dados : string :=
  "- Não invente DOI ou revistas; use apenas os dados fornecidos.".

Definition regra_informacao_ausente : string :=
  "- Se alguma informação não estiver disponível nos dados, deixe claro que não foi fornecida e faça uma orientação genérica.".

Definition regra_ate_dez : string :=
  "* selecione até 10 mais relevantes".

(** [prompt_tarefa] after its first character, a newline. *)
Definition corpo_tarefa : string :=
  match prompt_tarefa with
  | String _ s => s
  | EmptyString => EmptyString
  end.

(** The rank of a key: itself when present, [top] when missing. *)
Definition rank_of (top : nat) (c : option nat) : nat :=
  match c with
  | Some k => k
  | None => top
  end.

(** The rank of a tier cell: its place in [ordem_qualis], and the place
    after the last one for any other cell. *)
Definition tier_rank (v : value) : nat :=
  rank_of (length ordem_qualis) (code ordem_qualis v).

(** The place of a tier cell in the order A1 < A2 < A3 < A4 < B1 < B2 <
    B3 < B4 < C, written out tier by tier; every other cell, a missing one
    included, has the place after C. *)
Definition posto_do_estrato (v : value) : nat :=
  match v with
  | VStr s =>
      if String.eqb s "A1" then 0
      else if String.eqb s "A2" then 1
      else if String.eqb s "A3" then 2
      else if String.eqb s "A4" then 3
      else if String.eqb s "B1" then 4
      else if String.eqb s "B2" then 5
      else if String.eqb s "B3" then 6
      else if String.eqb s "B4" then 7
      else if String.eqb s "C" then 8
      else 9
  | _ => 9
  end.

(** A row whose cell at position [i] is a text in which the pattern is
    found; a missing cell and a cell that is not a text never match. *)
Definition linha_casa (found : string -> bool) (i : nat) (r : Row) : bool :=
  match nth i (cells r) NaN with
  | VStr s => found s
  | _ => false
  end.

(** The column a sub-topic is looked up in: none without a sub-topic,
    otherwise [escopo] when the catalog has it, else [subarea] when it has
    that one, else none. *)
Definition coluna_de_subarea (d : DataFrame) (subarea : option string)
  : option string :=
  match subarea with
  | None => None
  | Some sub =>
      if String.eqb sub "" then None
      else if existsb (String.eqb "escopo") (columns d) then Some "escopo"%string
      else if existsb (String.eqb "subarea") (columns d) then Some "subarea"%string
      else None
  end.

(** [p_sub] is the test of the sub-topic on a row: no test when there is no
    column to look it up in, otherwise that the cell under that column is a
    text in which the sub-topic, taken as a pattern, is found. *)
Definition teste_de_subarea `{RT : Runtime} (d : DataFrame)
    (subarea : option string) (p_sub : Row -> bool) : Prop :=
  match coluna_de_subarea d subarea with
  | None => forall r, p_sub r = true
  | Some c =>
      exists j found_sub,
        positions c (columns d) 0 = [j] /\
        re_compile_ci (or_default subarea "") = Some found_sub /\
        forall r, p_sub r = linha_casa found_sub j r
  end.

Definition mundo_inicial : World :=
  {| cache := None; heap := []; requests := []; avisos := []; chats := [] |}.

Definition catalogo_exemplo : DataFrame :=
  {| columns := [" Area"; "Estrato_Qualis "; "Escopo"]%string;
     rows := [ {| label := 0; cells := [VStr "Engenharia"; VStr "B1"; VStr "agua"] |};
               {| label := 1; cells := [VStr "Engenharia"; VStr "A2"; VStr "solo"] |};
               {| label := 2; cells := [VStr "Direito"; VStr "A1"; VStr "agua"] |};
               {| label := 3; cells := [VStr "engenharia civil"; VStr "X9"; VStr "agua"] |};
               {| label := 4; cells := [VStr "ENGENHARIA"; VStr "A2"; NaN] |} ] |}.

(** The same catalog without the tier column. *)
Definition catalogo_sem_estrato : DataFrame :=
  {| columns := ["area"; "escopo"]%string;
     rows := [ {| label := 0; cells := [VStr "Engenharia"; VStr "agua"] |};
               {| label := 1; cells := [VStr "Direito"; VStr "agua"] |};
               {| label := 2; cells := [VStr "engenharia civil"; VStr "solo"] |} ] |}.

Definition env_exemplo (csv : result DataFrame) (resp : response) : Env :=
  {| read_csv := csv;
     http_get := fun _ _ => resp;
     chat_create := fun _ => Ok "relatorio"%string |}.

(** A response body with the given items. *)
Definition corpo (items : value) : value :=
  VDict [("status"%string, VStr "ok");
         ("message"%string, VDict [("items"%string, items)])].

(** The keys [sort_values] sorts by: the codes of the tier cells. *)
Definition tier_codes (i : nat) (rs : list Row) : list (option nat) :=
  map (fun r => code ordem_qualis (cell_at i r)) rs.

(** The cache, when filled, holds what the file gives: so it is in every
    world the program reaches from an empty cache, the file being the
    same throughout. *)
Definition coerente `{RT : Runtime} (env : Env) (w : World) : Prop :=
  match cache w with
  | Some v => ler_arquivo env = Ok v
  | None => True
  end.

(** ** Worlds and collaborators of the examples *)


Definition env_catalogo : Env :=
  env_exemplo (Ok catalogo_exemplo) (RequestFails (RequestException "offline")).

Definition env_sem_estrato : Env :=
  env_exemplo (Ok catalogo_sem_estrato) (RequestFails (RequestException "offline")).

Definition env_sem_arquivo : Env :=
  env_exemplo (Raise (OSError "data/qualis_revistas.csv"))
    (RequestFails (RequestException "offline")).

Definition catalogo_normalizado : DataFrame :=
  {| columns := ["area"; "estrato_qualis"; "escopo"]%string;
     rows := rows catalogo_exemplo |}.

Definition filtrado_agua : DataFrame :=
  {| columns := ["area"; "estrato_qualis"; "escopo"]%string;
     rows := [ {| label := 0; cells := [VStr "Engenharia"; VStr "B1"; VStr "agua"] |};
               {| label := 3; cells := [VStr "engenharia civil"; NaN; VStr "agua"] |} ] |}.

Definition mundo_um : World :=
  {| cache := None; heap := [catalogo_normalizado]; requests := [];
     avisos := []; chats := [] |}.

Definition mundo_dois : World :=
  {| cache := Some catalogo_normalizado;
     heap := [catalogo_sem_estrato; catalogo_normalizado];
     requests := [("agua"%string, 5%Z)];
     avisos := [AvisoSemRevistas]; chats := [[]] |}.

(** * Properties *)

(** ** The library functions on small inputs *)

Example chars_utf8 : chars "Água" = ["Á"; "g"; "u"; "a"]%string.
Proof. reflexivity. Qed.

Example getitem_0_str : getitem_0 (VStr "2020") = Ok (VStr "2").
Proof. reflexivity. Qed.

Example getitem_0_empty : getitem_0 (VList []) = Raise IndexError.
Proof. reflexivity. Qed.

Example dedent_margin :
  Textwrap.dedent (String "010" "    a" +:+ String "010" "      b" +:+
                   String "010" "   " +:+ String "010" "    c")
  = String "010" "a" +:+ String "010" "  b" +:+ String "010" "" +:+
    String "010" "c".
Proof. reflexivity. Qed.

(** A line without indentation leaves no margin to remove. *)
Example dedent_no_margin :
  Textwrap.dedent ("    a" +:+ String "010" "b") = "    a" +:+ String "010" "b".
Proof. reflexivity. Qed.

Example to_records_repeated_label :
  to_records {| columns := ["a"; "b"; "a"]%string;
                rows := [ {| label := 0; cells := [VInt 1; VInt 2; VInt 3] |} ] |}
  = [VDict [("a"%string, VInt 3); ("b"%string, VInt 2)]].
Proof. reflexivity. Qed.

Example nargsort_missing_last :
  nargsort (RT := runtime_exemplo) [None; Some 4; Some 1; None; Some 8]
  = [2; 1; 4; 0; 3].
Proof. reflexivity. Qed.

(** ** Literature search *)

Section Crossref.
Context `{RT : Runtime} (env : Env).

Lemma requests_buscar_artigos_crossref (query : string) (n : Z) (w : World) :
  query <> ""%string ->
  requests (snd (buscar_artigos_crossref env query n w))
  = requests w ++ [(query, n)].
Proof.
  intros Hq. apply String.eqb_neq in Hq.
  unfold buscar_artigos_crossref. rewrite Hq.
  unfold bind, try_except, buscar_items, bind, requests_get, lift, st_warning,
    ret. simpl.
  destruct (http_get env query n) as [e|status body]; simpl; [reflexivity|].
  destruct (raise_for_status status); simpl; [|reflexivity].
  destruct body as [body|e]; simpl; [|reflexivity].
  destruct (get body "message" (VDict [])) as [message|e]; simpl;
    [|reflexivity].
  destruct (get message "items" (VList [])) as [items|e]; simpl;
    [|reflexivity].
  destruct (iterate items) as [its|e]; simpl; reflexivity.
Qed.

(** C3 (as amended): with the empty query the search returns the empty
    list and leaves the world as it is; in particular no request is added
    to the log of network calls, whatever the row count.  Any other query,
    one made of spaces included, adds exactly one request to the log. *)
Theorem busca_query_vazia (n : Z) (w : World) :
  buscar_artigos_crossref env "" n w = (Ok [], w) /\
  (forall query,
      query <> ""%string ->
      requests (snd (buscar_artigos_crossref env query n w))
      = requests w ++ [(query, n)]).
Proof.
  split; [reflexivity|]. intros query Hq.
  by apply requests_buscar_artigos_crossref.
Qed.

(** A failing request, an error status, a body that is not JSON, and a body
    or a message that is not an object all end in the empty list and one
    warning. *)
Lemma busca_falha_absorvida (query : string) (n : Z) (w w' : World) (e : exn) :
  query <> ""%string ->
  buscar_items env query n w = (Raise e, w') ->
  buscar_artigos_crossref env query n w
  = (Ok [], {| cache := cache w'; heap := heap w'; requests := requests w';
               avisos := avisos w' ++ [AvisoCrossref e]; chats := chats w' |}).
Proof.
  intros Hq Hitems. unfold buscar_artigos_crossref.
  apply String.eqb_neq in Hq. rewrite Hq.
  unfold bind, try_except. rewrite Hitems. reflexivity.
Qed.



End Crossref.


(** An item without any date field has no year. *)
Example ano_ausente :
  normalizar_item (RT := runtime_exemplo)
    (VDict [("title"%string, VList [VStr "Water"]); ("DOI"%string, VStr "10.1/x")])
  = Ok {| titulo := VStr "Water"; ano := VNone; doi := VStr "10.1/x";
          link := Some "https://doi.org/10.1/x"%string |}.
Proof. reflexivity. Qed.

(** A date that cannot be read is passed over: here the print date has no
    parts and the issued date gives the year. *)
Example ano_data_ilegivel :
  extrair_ano [("published-print"%string, VDict [("date-parts"%string, VList [])]);
               ("issued"%string, VDict [("date-parts"%string, VList [VList [VInt 2019]])])]
    chaves_de_data = VInt 2019.
Proof. reflexivity. Qed.

(** C1: the endpoint answers 200 with one item whose title list is empty;
    the search does not return the empty list with a warning, the
    [IndexError] of line 83 leaves the function and no warning is shown. *)
Theorem busca_titulo_vazio_levanta :
  buscar_artigos_crossref (RT := runtime_exemplo)
    (env_exemplo (Ok catalogo_exemplo)
       (Response 200 (Ok (corpo (VList [VDict [("title"%string, VList [])]])))))
    "agua" 10 mundo_inicial
  = (Raise IndexError,
     {| cache := None; heap := []; requests := [("agua"%string, 10%Z)];
        avisos := []; chats := [] |}).
Proof. reflexivity. Qed.

(** The same happens when [items] is not a list of objects. *)
Example busca_items_nulo_levanta :
  fst (buscar_artigos_crossref (RT := runtime_exemplo)
         (env_exemplo (Ok catalogo_exemplo) (Response 200 (Ok (corpo VNone))))
         "agua" 10 mundo_inicial)
  = Raise TypeError.
Proof. reflexivity. Qed.

(** A body that is not JSON is absorbed. *)
Example busca_corpo_ilegivel :
  buscar_artigos_crossref (RT := runtime_exemplo)
    (env_exemplo (Ok catalogo_exemplo) (Response 200 (Raise JSONDecodeError)))
    "agua" 10 mundo_inicial
  = (Ok [],
     {| cache := None; heap := []; requests := [("agua"%string, 10%Z)];
        avisos := [AvisoCrossref JSONDecodeError]; chats := [] |}).
Proof. reflexivity. Qed.

Lemma busca_query_vazia_witness :
  let env := env_exemplo (Ok catalogo_exemplo)
               (Response 200 (Ok (corpo (VList [])))) in
  buscar_artigos_crossref (RT := runtime_exemplo) env "" 5 mundo_inicial
  = (Ok [], mundo_inicial) /\
  requests (snd (buscar_artigos_crossref (RT := runtime_exemplo) env "   " 5
                   mundo_inicial))
  = requests mundo_inicial ++ [("   "%string, 5%Z)].
Proof.
  intros env.
  destruct (busca_query_vazia (RT := runtime_exemplo) env 5 mundo_inicial)
    as [Hvazia Houtras].
  split; [exact Hvazia|]. apply Houtras. discriminate.
Defined.

(** Scenario 3 of the specification: of three items one has no date; three
    records come back, in the order of the service, one without a year. *)
Example cenario_tres_itens :
  fst (buscar_artigos_crossref (RT := runtime_exemplo)
         (env_exemplo (Ok catalogo_exemplo)
            (Response 200 (Ok (corpo (VList [
               VDict [("title"%string, VList [VStr "a"]);
                      ("published-print"%string,
                       VDict [("date-parts"%string, VList [VList [VInt 2021; VInt 3]])])];
               VDict [("title"%string, VList [VStr "b"])];
               VDict [("title"%string, VList [VStr "c"]);
                      ("published-online"%string,
                       VDict [("date-parts"%string, VList [VList [VInt 2018]])]);
                      ("issued"%string,
                       VDict [("date-parts"%string, VList [VList [VInt 2017]])])]])))))
         "water treatment" 5 mundo_inicial)
  = Ok [ {| titulo := VStr "a"; ano := VInt 2021; doi := VNone; link := None |};
         {| titulo := VStr "b"; ano := VNone; doi := VNone; link := None |};
         {| titulo := VStr "c"; ano := VInt 2018; doi := VNone; link := None |} ].
Proof. reflexivity. Qed.

(** C3 (counterexample): a query of one space is not empty; the request
    is made, so the log of network calls is no longer the one before. *)
Lemma busca_query_espaco_chama_rede :
  let env := env_exemplo (Ok catalogo_exemplo)
               (Response 200 (Ok (corpo (VList [])))) in
  let w' := snd (buscar_artigos_crossref (RT := runtime_exemplo) env " " 5
                   mundo_inicial) in
  requests w' = [(" "%string, 5%Z)] /\ requests w' <> requests mundo_inicial.
Proof. split; [reflexivity|discriminate]. Qed.

(** ** The catalog and the filter as functions of the world *)

Section Estado.
Context `{RT : Runtime} (env : Env).

Lemma lookup_snoc_here {A} (h : list A) (x : A) : (h ++ [x]) !! length h = Some x.
Proof. by apply list_lookup_middle. Qed.

Lemma insert_snoc_here {A} (h : list A) (x y : A) :
  <[length h := y]> (h ++ [x]) = h ++ [y].
Proof.
  replace (length h) with (length h + 0) at 1 by lia.
  by rewrite insert_app_r.
Qed.

(** [load_revistas] returns a new object holding the catalog and leaves
    the catalog in the cache; when the file cannot be read the exception
    leaves the function and the world is as before. *)
Lemma load_revistas_spec (w : World) :
  load_revistas env w
  = match catalogo env w with
    | Ok d => (Ok (length (heap w)), com_catalogo w (Some d) (heap w ++ [d]))
    | Raise e => (Raise e, w)
    end.
Proof.
  unfold load_revistas, catalogo, ler_arquivo, bind, get_cache. simpl.
  destruct (cache w) as [v|] eqn:Hc.
  - unfold alloc, com_catalogo. rewrite Hc. reflexivity.
  - unfold load_revistas_body, bind, lift, alloc, read, write, put_cache, ret,
      deref. simpl.
    destruct (read_csv env) as [d0|e]; simpl.
    + rewrite lookup_snoc_here. simpl.
      rewrite insert_snoc_here, lookup_snoc_here. reflexivity.
    + destruct w; simpl in *; subst; reflexivity.
Qed.

(** [filtrar_revistas] step by step: the object of the catalog, the
    selection [df[mask]], its copy [filtrado], and, with a tier column, the
    converted copy in the place of [filtrado] and the sorted frame. *)
Lemma filtrar_revistas_spec (area : string) (subarea : option string) (w : World) :
  filtrar_revistas env area subarea w
  = match catalogo env w with
    | Raise e => (Raise e, w)
    | Ok d =>
        match mascara d area subarea with
        | Raise e => (Raise e, com_catalogo w (Some d) (heap w ++ [d]))
        | Ok mask =>
            let f := {| columns := columns d;
                        rows := select_rows mask (rows d) |} in
            if has_column "estrato_qualis" f then
              let c := astype_category "estrato_qualis" ordem_qualis f in
              match sort_values "estrato_qualis" ordem_qualis c with
              | Ok s =>
                  (Ok (length (heap w) + 3),
                   com_catalogo w (Some d) (heap w ++ [d; f; c; s]))
              | Raise e =>
                  (Raise e, com_catalogo w (Some d) (heap w ++ [d; f; c]))
              end
            else
              (Ok (length (heap w) + 2),
               com_catalogo w (Some d) (heap w ++ [d; f; f]))
        end
    end.
Proof.
  unfold filtrar_revistas, bind at 1. rewrite load_revistas_spec.
  destruct (catalogo env w) as [d|e]; [|reflexivity].
  unfold bind, read, lift, alloc, write, ret, deref, com_catalogo. simpl.
  rewrite lookup_snoc_here.
  destruct (mascara d area subarea) as [mask|e]; [|reflexivity].
  simpl. rewrite !lookup_snoc_here.
  set (f := {| columns := columns d; rows := select_rows mask (rows d) |}).
  destruct (has_column "estrato_qualis" f) eqn:Hcol.
  - simpl. rewrite insert_snoc_here, lookup_snoc_here.
    destruct (sort_values "estrato_qualis" ordem_qualis
                (astype_category "estrato_qualis" ordem_qualis f)) as [s|e].
    + rewrite !length_app. simpl. rewrite <- !app_assoc. simpl.
      f_equal. f_equal. lia.
    + rewrite <- !app_assoc. reflexivity.
  - rewrite !length_app. simpl. rewrite <- !app_assoc. simpl.
    f_equal. f_equal. lia.
Qed.

Lemma lookup_app_at {A} (h l : list A) (i : nat) :
  (h ++ l) !! (length h + i) = l !! i.
Proof.
  rewrite lookup_app_r by lia. f_equal. lia.
Qed.

Lemma run_load_spec (w : World) : run_load env w = catalogo env w.
Proof.
  unfold run_load. rewrite load_revistas_spec.
  destruct (catalogo env w) as [d|e]; [|reflexivity].
  unfold deref, com_catalogo. simpl. by rewrite lookup_snoc_here.
Qed.

Lemma run_filtrar_spec (area : string) (subarea : option string) (w : World) :
  run_filtrar env area subarea w
  = rbind (catalogo env w) (fun d => filtrar_valor d area subarea).
Proof.
  unfold run_filtrar, filtrar_valor. rewrite filtrar_revistas_spec.
  destruct (catalogo env w) as [d|e]; [|reflexivity]. simpl.
  destruct (mascara d area subarea) as [mask|e]; [|reflexivity]. simpl.
  set (f := {| columns := columns d; rows := select_rows mask (rows d) |}).
  destruct (has_column "estrato_qualis" f).
  - destruct (sort_values "estrato_qualis" ordem_qualis
                (astype_category "estrato_qualis" ordem_qualis f)) as [s|e];
      [|reflexivity].
    unfold deref, com_catalogo. simpl. by rewrite lookup_app_at.
  - unfold deref, com_catalogo. simpl. by rewrite lookup_app_at.
Qed.

(** The catalog a later call observes is the one this call observed. *)
Lemma catalogo_apos_filtro (area : string) (subarea : option string) (w : World) :
  catalogo env (snd (filtrar_revistas env area subarea w)) = catalogo env w.
Proof.
  rewrite filtrar_revistas_spec.
  destruct (catalogo env w) as [d|e] eqn:Hd; [|exact Hd].
  destruct (mascara d area subarea) as [mask|e]; [|reflexivity]. simpl.
  destruct (has_column _ _); [|reflexivity].
  destruct (sort_values _ _ _); reflexivity.
Qed.

Lemma gerar_relatorio_ia_spec (area : string) (subarea : option string)
    (revistas : loc) (artigos : list artigo) (palavras_chave : option string)
    (w : World) :
  gerar_relatorio_ia env area subarea revistas artigos palavras_chave w
  = (chat_create env
       (montar_mensagens area subarea (deref revistas w) artigos palavras_chave),
     {| cache := cache w; heap := heap w; requests := requests w;
        avisos := avisos w;
        chats := chats w ++
                 [montar_mensagens area subarea (deref revistas w) artigos
                    palavras_chave] |}).
Proof. reflexivity. Qed.

(** The worlds the program reaches are coherent with the file: the empty
    world is, and the operations keep it so. *)
Lemma coerente_inicial : coerente env mundo_inicial.
Proof. exact I. Qed.

Lemma coerente_catalogo (w : World) (d : DataFrame) :
  coerente env w -> catalogo env w = Ok d -> ler_arquivo env = Ok d.
Proof.
  unfold coerente, catalogo. destruct (cache w) as [v|].
  - intros Hv [= <-]. exact Hv.
  - intros _ Hd. exact Hd.
Qed.

Lemma coerente_load_revistas (w : World) :
  coerente env w -> coerente env (snd (load_revistas env w)).
Proof.
  intros Hw. rewrite load_revistas_spec.
  destruct (catalogo env w) as [d|e] eqn:Hd; [|exact Hw].
  exact (coerente_catalogo w d Hw Hd).
Qed.

Lemma coerente_filtrar_revistas (area : string) (subarea : option string)
    (w : World) :
  coerente env w -> coerente env (snd (filtrar_revistas env area subarea w)).
Proof.
  intros Hw. rewrite filtrar_revistas_spec.
  destruct (catalogo env w) as [d|e] eqn:Hd; [|exact Hw].
  pose proof (coerente_catalogo w d Hw Hd) as Hf.
  destruct (mascara d area subarea) as [mask|e]; [|exact Hf]. simpl.
  destruct (has_column _ _); [|exact Hf].
  destruct (sort_values _ _ _); exact Hf.
Qed.

Lemma coerente_cache (w w' : World) :
  cache w' = cache w -> coerente env w -> coerente env w'.
Proof. unfold coerente. by intros ->. Qed.

Lemma cache_buscar_artigos_crossref (query : string) (n : Z) (w : World) :
  cache (snd (buscar_artigos_crossref env query n w)) = cache w.
Proof.
  unfold buscar_artigos_crossref.
  destruct (String.eqb query ""); [reflexivity|].
  unfold bind, try_except, buscar_items, bind, requests_get, lift, st_warning,
    ret. simpl.
  destruct (http_get env query n) as [e|status body]; simpl; [reflexivity|].
  destruct (raise_for_status status); simpl; [|reflexivity].
  destruct body as [body|e]; simpl; [|reflexivity].
  destruct (get body "message" (VDict [])) as [message|e]; simpl;
    [|reflexivity].
  destruct (get message "items" (VList [])) as [items|e]; simpl;
    [|reflexivity].
  destruct (iterate items) as [its|e]; simpl; reflexivity.
Qed.

Lemma cache_gerar_relatorio_ia (area : string) (subarea : option string)
    (revistas : loc) (artigos : list artigo) (palavras_chave : option string)
    (w : World) :
  cache (snd (gerar_relatorio_ia env area subarea revistas artigos
                palavras_chave w)) = cache w.
Proof. reflexivity. Qed.

Lemma coerente_pipeline (area subarea palavras_chave : string) (n : Z)
    (w : World) :
  coerente env w ->
  coerente env (snd (pipeline env area subarea palavras_chave n w)).
Proof.
  intros Hw. unfold pipeline, bind at 1.
  pose proof (coerente_filtrar_revistas area (Some subarea) w Hw) as H1.
  destruct (filtrar_revistas env area (Some subarea) w) as [[l|e] w1];
    [|exact H1].
  simpl in H1. unfold bind at 1, read at 1. unfold bind at 1.
  set (aviso_vazio := if frame_empty (deref l w1)
                      then st_warning AvisoSemRevistas else ret tt).
  assert (H2 : aviso_vazio w1 = (Ok tt, snd (aviso_vazio w1)) /\
               cache (snd (aviso_vazio w1)) = cache w1).
  { subst aviso_vazio. by destruct (frame_empty (deref l w1)). }
  destruct H2 as [H2 H2c]. rewrite H2.
  set (w2 := snd (aviso_vazio w1)) in *.
  unfold bind at 1.
  set (busca := if negb (String.eqb (str_strip palavras_chave) "")
                then buscar_artigos_crossref env
                       (area +:+ " " +:+ or_default (Some subarea) "" +:+ " " +:+
                        palavras_chave) n
                else ret []).
  assert (H3 : cache (snd (busca w2)) = cache w2).
  { subst busca. destruct (negb _); [|reflexivity].
    apply cache_buscar_artigos_crossref. }
  destruct (busca w2) as [[artigos|e] w3]; simpl in H3.
  - unfold bind at 1. rewrite gerar_relatorio_ia_spec.
    destruct (chat_create env _); simpl;
      apply (coerente_cache w1); try exact H1; simpl; congruence.
  - simpl. apply (coerente_cache w1); [congruence|exact H1].
Qed.

(** C8: in a world coherent with the file, when [pd.read_csv] raises an
    exception, [load_revistas] ends with that exception and with nothing
    cached or changed, and [filtrar_revistas] and the pipeline of [main]
    end with the same exception without doing anything else: no request,
    no warning and no call to the text-generation service. *)
Theorem falha_do_catalogo_propaga (w : World) (e : exn) :
  coerente env w ->
  read_csv env = Raise e ->
  load_revistas env w = (Raise e, w) /\
  (forall area subarea, filtrar_revistas env area subarea w = (Raise e, w)) /\
  (forall area subarea palavras_chave n,
      pipeline env area subarea palavras_chave n w = (Raise e, w)).
Proof.
  intros Hw He.
  assert (Hfile : ler_arquivo env = Raise e).
  { unfold ler_arquivo. by rewrite He. }
  assert (Hcat : catalogo env w = Raise e).
  { unfold coerente in Hw. unfold catalogo.
    destruct (cache w) as [v|]; [congruence|exact Hfile]. }
  assert (Hf : forall area subarea,
             filtrar_revistas env area subarea w = (Raise e, w)).
  { intros. by rewrite filtrar_revistas_spec, Hcat. }
  split; [|split].
  - by rewrite load_revistas_spec, Hcat.
  - exact Hf.
  - intros. unfold pipeline, bind at 1. by rewrite Hf.
Qed.

(** C9: after a call of [filtrar_revistas] a later [load_revistas] and a
    later [filtrar_revistas] return what they would have returned before
    it; every object that was in the heap is as it was; and when the
    catalog could be loaded it is the cached value and the object
    [load_revistas] handed to the call still holds it, the tier column
    being converted in the copy only. *)
Theorem filtro_preserva_catalogo (area : string) (subarea : option string)
    (w : World) :
  let w' := snd (filtrar_revistas env area subarea w) in
  run_load env w' = run_load env w /\
  (forall a s, run_filtrar env a s w' = run_filtrar env a s w) /\
  take (length (heap w)) (heap w') = heap w /\
  match catalogo env w with
  | Ok d => cache w' = Some d /\ deref (length (heap w)) w' = d
  | Raise _ => w' = w
  end.
Proof.
  intros w'. split; [|split; [|split]].
  - subst w'. by rewrite !run_load_spec, catalogo_apos_filtro.
  - intros a s. subst w'. by rewrite !run_filtrar_spec, catalogo_apos_filtro.
  - subst w'. rewrite filtrar_revistas_spec.
    destruct (catalogo env w) as [d|e]; [|simpl; by rewrite firstn_all].
    destruct (mascara d area subarea) as [mask|e];
      [simpl|simpl; by rewrite take_app_length].
    destruct (has_column _ _); [|simpl; by rewrite take_app_length].
    destruct (sort_values _ _ _); simpl; by rewrite take_app_length.
  - subst w'. rewrite filtrar_revistas_spec.
    destruct (catalogo env w) as [d|e]; [|reflexivity].
    assert (Hd : forall l, (heap w ++ d :: l) !! length (heap w) = Some d).
    { intros l. by apply list_lookup_middle. }
    destruct (mascara d area subarea) as [mask|e]; simpl.
    + destruct (has_column _ _); [destruct (sort_values _ _ _)|];
        simpl; unfold deref; simpl; by rewrite Hd.
    + unfold deref; simpl; by rewrite Hd.
Qed.

End Estado.

(** ** Sorting by position *)

Section Ordenacao.
Context `{RT : Runtime}.

Lemma map_nth_seq {A} (l : list A) (d : A) :
  map (fun j => nth j l d) (seq 0 (length l)) = l.
Proof.
  induction l as [|x l IH]; [reflexivity|].
  simpl. f_equal. rewrite <- seq_shift, map_map. exact IH.
Qed.

Lemma enumerate_elem {A} (l : list A) (s i : nat) (c : A) :
  (i, c) ∈ enumerate s l -> s <= i /\ l !! (i - s) = Some c.
Proof.
  revert s. induction l as [|x l IH]; intros s Hin; simpl in Hin.
  - by apply elem_of_nil in Hin.
  - apply elem_of_cons in Hin as [Heq|Hin].
    + inversion Heq; subst. split; [lia|]. by rewrite Nat.sub_diag.
    + apply IH in Hin as [Hle Hl]. split; [lia|].
      replace (i - s) with (S (i - S s)) by lia. exact Hl.
Qed.

(** The positions of the present keys and those of the missing keys are
    together all the positions. *)
Lemma present_missing_perm (codes : list (option nat)) (s : nat) :
  map fst (omap present (enumerate s codes)) ++ omap missing (enumerate s codes)
  ≡ₚ seq s (length codes).
Proof.
  revert s. induction codes as [|c codes IH]; intros s; [reflexivity|].
  destruct c as [k|]; simpl; unfold present, missing; simpl.
  - by rewrite IH.
  - by rewrite <- Permutation_middle, IH.
Qed.

Lemma nargsort_perm (codes : list (option nat)) :
  nargsort codes ≡ₚ seq 0 (length codes).
Proof.
  unfold nargsort.
  rewrite <- (present_missing_perm codes 0).
  apply Permutation_app_tail.
  set (P := omap present (enumerate 0 codes)).
  transitivity (map (fun j => nth j (map fst P) 0) (seq 0 (length (map snd P)))).
  - apply Permutation_map, np_argsort_perm.
  - replace (length (map snd P)) with (length (map fst P))
      by (by rewrite !length_map).
    by rewrite map_nth_seq.
Qed.

Lemma present_key (codes : list (option nat)) (i k : nat) :
  (i, k) ∈ omap present (enumerate 0 codes) -> nth i codes None = Some k.
Proof.
  intros Hin. apply list_elem_of_omap in Hin as ([i' c] & Hin & Hp).
  unfold present in Hp. simpl in Hp. destruct c as [k'|]; [|discriminate].
  inversion Hp; subst.
  apply enumerate_elem in Hin as [_ Hl]. rewrite Nat.sub_0_r in Hl.
  by apply nth_lookup_Some.
Qed.

Lemma missing_key (codes : list (option nat)) (i : nat) :
  i ∈ omap missing (enumerate 0 codes) -> nth i codes None = None.
Proof.
  intros Hin. apply list_elem_of_omap in Hin as ([i' c] & Hin & Hp).
  unfold missing in Hp. simpl in Hp. destruct c as [k'|]; [discriminate|].
  inversion Hp; subst.
  apply enumerate_elem in Hin as [_ Hl]. rewrite Nat.sub_0_r in Hl.
  by apply nth_lookup_Some.
Qed.

Lemma nth_Some_elem {A} (l : list (option A)) (i : nat) (x : A) :
  nth i l None = Some x -> Some x ∈ l.
Proof.
  intros Hn.
  destruct (nth_lookup_or_length l i None) as [Hl|Hlen].
  - rewrite Hn in Hl. by eapply list_elem_of_lookup_2.
  - rewrite nth_overflow in Hn by exact Hlen. discriminate.
Qed.

(** Along [nargsort] the ranks do not decrease, when [top] bounds the keys. *)
Lemma nargsort_sorted (codes : list (option nat)) (top : nat) :
  (forall k, Some k ∈ codes -> k <= top) ->
  StronglySorted le (map (fun i => rank_of top (nth i codes None)) (nargsort codes)).
Proof.
  intros Hb. unfold nargsort.
  set (P := omap present (enumerate 0 codes)).
  set (N := omap missing (enumerate 0 codes)).
  assert (HP : forall j, j < length P ->
             nth (nth j (map fst P) 0) codes None = Some (nth j (map snd P) 0)).
  { intros j Hj.
    pose proof (map_nth fst P (0, 0) j) as Hf. simpl in Hf. rewrite Hf.
    pose proof (map_nth snd P (0, 0) j) as Hs. simpl in Hs. rewrite Hs.
    apply present_key. fold P.
    destruct (nth j P (0, 0)) as [i k] eqn:Hn. simpl.
    rewrite <- Hn. apply list_elem_of_In, nth_In. exact Hj. }
  assert (Hfirst :
    map (fun i => rank_of top (nth i codes None))
        (map (fun j => nth j (map fst P) 0) (np_argsort (map snd P)))
    = map (fun j => nth j (map snd P) 0) (np_argsort (map snd P))).
  { rewrite map_map. apply map_ext_in. intros j Hj.
    apply list_elem_of_In in Hj. rewrite np_argsort_perm in Hj.
    apply elem_of_seq in Hj. rewrite length_map in Hj.
    rewrite HP by lia. reflexivity. }
  rewrite map_app, Hfirst.
  apply StronglySorted_app_2.
  - intros x1 x2 H1 H2.
    apply list_elem_of_fmap in H2 as (i & -> & Hi).
    rewrite (missing_key codes i Hi). simpl.
    apply list_elem_of_fmap in H1 as (j & -> & Hj).
    rewrite np_argsort_perm in Hj. apply elem_of_seq in Hj.
    rewrite length_map in Hj.
    apply Hb. apply (nth_Some_elem _ (nth j (map fst P) 0)).
    apply HP. lia.
  - apply np_argsort_sorted.
  - assert (Hall : Forall (fun x => x = top)
                     (map (fun i => rank_of top (nth i codes None)) N)).
    { apply Forall_forall. intros x Hx.
      apply list_elem_of_fmap in Hx as (i & -> & Hi).
      by rewrite (missing_key codes i Hi). }
    induction Hall as [|x l Hx Hl IH]; constructor; [exact IH|].
    subst x. eapply Forall_impl; [exact Hl|]. intros y ->. lia.
Qed.

End Ordenacao.

(** ** Selecting and taking rows *)

Lemma select_rows_sublist (mask : list bool) (rs : list Row) :
  select_rows mask rs `sublist_of` rs.
Proof.
  revert mask. induction rs as [|r rs IH]; intros [|b mask]; simpl;
    try apply sublist_nil_l.
  destruct b; [apply sublist_skip | apply sublist_cons]; apply IH.
Qed.

Lemma select_rows_mask_and (m1 m2 : list bool) (rs : list Row) :
  select_rows (mask_and m1 m2) rs `sublist_of` select_rows m1 rs.
Proof.
  revert m1 m2. induction rs as [|r rs IH]; intros [|b1 m1] [|b2 m2]; simpl;
    try apply sublist_nil_l.
  destruct b1, b2; simpl.
  - apply sublist_skip, IH.
  - apply sublist_cons, IH.
  - apply IH.
  - apply IH.
Qed.

Lemma take_rows_seq_from (pre rs : list Row) :
  omap (fun i => (pre ++ rs) !! i) (seq (length pre) (length rs)) = rs.
Proof.
  revert pre. induction rs as [|r rs IH]; intros pre; [reflexivity|].
  simpl. rewrite list_lookup_middle by reflexivity. f_equal.
  specialize (IH (pre ++ [r])).
  rewrite <- app_assoc, length_app in IH. simpl in IH.
  rewrite Nat.add_1_r in IH. exact IH.
Qed.

Lemma take_rows_seq (rs : list Row) : take_rows (seq 0 (length rs)) rs = rs.
Proof. exact (take_rows_seq_from [] rs). Qed.

Lemma take_rows_perm (idx : list nat) (rs : list Row) :
  idx ≡ₚ seq 0 (length rs) -> take_rows idx rs ≡ₚ rs.
Proof.
  intros Hp. transitivity (take_rows (seq 0 (length rs)) rs).
  - unfold take_rows. by rewrite Hp.
  - by rewrite take_rows_seq.
Qed.

Lemma take_rows_fmap (f : Row -> Row) (idx : list nat) (rs : list Row) :
  take_rows idx (map f rs) = map f (take_rows idx rs).
Proof.
  unfold take_rows. induction idx as [|i idx IH]; [reflexivity|].
  simpl. fold (omap (fun i0 => map f rs !! i0) idx).
  fold (omap (fun i0 => rs !! i0) idx). rewrite IH.
  pose proof (list_lookup_fmap f rs i) as Hl.
  change (f <$> rs) with (map f rs) in Hl. rewrite Hl.
  destruct (rs !! i); reflexivity.
Qed.

Lemma take_rows_map {B} (g : Row -> B) (d : Row) (idx : list nat) (rs : list Row) :
  Forall (fun i => i < length rs) idx ->
  map g (take_rows idx rs) = map (fun i => g (nth i rs d)) idx.
Proof.
  unfold take_rows. induction 1 as [|i idx Hi _ IH]; [reflexivity|].
  simpl. fold (omap (fun i0 => rs !! i0) idx).
  destruct (nth_lookup_or_length rs i d) as [Hl|Hlen]; [|lia].
  rewrite Hl. simpl. by rewrite IH.
Qed.

Lemma StronglySorted_lookup_lt {A} (R : relation A) (l : list A) (a b : nat) (x y : A) :
  StronglySorted R l -> a < b -> l !! a = Some x -> l !! b = Some y -> R x y.
Proof.
  intros Hs. revert a b. induction Hs as [|z l Hs IH Hall]; intros a b Hab Ha Hb.
  - by rewrite lookup_nil in Ha.
  - destruct b as [|b]; [lia|]. simpl in Hb. destruct a as [|a].
    + simpl in Ha. inversion Ha; subst.
      rewrite Forall_forall in Hall. apply Hall.
      by eapply list_elem_of_lookup_2.
    + simpl in Ha. apply (IH a b); [lia|done|done].
Qed.

(** ** Columns and categories *)

Lemma has_column_positions (name : string) (d : DataFrame) :
  has_column name d = true -> positions name (columns d) 0 <> [].
Proof.
  unfold has_column. generalize 0. induction (columns d) as [|c cols IH];
    intros n; simpl; [discriminate|].
  rewrite String.eqb_sym. destruct (String.eqb c name); [discriminate|].
  simpl. apply IH.
Qed.

Lemma positions_none (name : string) (d : DataFrame) :
  has_column name d = false -> positions name (columns d) 0 = [].
Proof.
  unfold has_column. generalize 0. induction (columns d) as [|c cols IH];
    intros n; simpl; [reflexivity|].
  rewrite String.eqb_sym. destruct (String.eqb c name); [discriminate|].
  simpl. apply IH.
Qed.

Lemma index_of_lt (s : string) (l : list string) (i k : nat) :
  index_of s l i = Some k -> k < i + length l.
Proof.
  revert i. induction l as [|x l IH]; intros i; simpl; [discriminate|].
  destruct (String.eqb x s).
  - intros [= ->]. lia.
  - intros H. apply IH in H. lia.
Qed.

Lemma code_lt (categories : list string) (v : value) (k : nat) :
  code categories v = Some k -> k < length categories.
Proof.
  destruct v; simpl; try discriminate. intros H.
  by apply index_of_lt in H.
Qed.

Lemma code_to_category (categories : list string) (v : value) :
  code categories (to_category categories v) = code categories v.
Proof.
  unfold to_category. destruct (code categories v) eqn:Hc; [exact Hc|].
  reflexivity.
Qed.

Lemma positions_ge (name : string) (cols : list string) (n i : nat) :
  i ∈ positions name cols n -> n <= i.
Proof.
  revert n. induction cols as [|c cols IH]; intros n; simpl.
  - intros H. by apply elem_of_nil in H.
  - destruct (String.eqb c name).
    + intros H. apply elem_of_cons in H as [->|H]; [lia|].
      apply IH in H. lia.
    + intros H. apply IH in H. lia.
Qed.

(** Under the one column called [name] the cell of a converted row is the
    converted cell. *)
Lemma update_named_at (name : string) (f : value -> value)
    (cols : list string) (cs : list value) (n i : nat) :
  f NaN = NaN ->
  i ∈ positions name cols n ->
  nth (i - n) (update_named name f cols cs) NaN = f (nth (i - n) cs NaN).
Proof.
  intros HNaN. revert cs n.
  induction cols as [|c cols IH]; intros cs n Hin; simpl in Hin.
  - by apply elem_of_nil in Hin.
  - destruct cs as [|x cs].
    + simpl. destruct (i - n); simpl; by rewrite HNaN.
    + simpl. destruct (String.eqb c name) eqn:Hc.
      * apply elem_of_cons in Hin as [->|Hin].
        -- rewrite Nat.sub_diag. reflexivity.
        -- pose proof (positions_ge _ _ _ _ Hin) as Hge.
           replace (i - n) with (S (i - S n)) by lia. simpl. by apply IH.
      * pose proof (positions_ge _ _ _ _ Hin) as Hge.
        replace (i - n) with (S (i - S n)) by lia. simpl. by apply IH.
Qed.

Lemma code_astype_row (name : string) (cols : list string) (i : nat) (r : Row) :
  positions name cols 0 = [i] ->
  code ordem_qualis (cell_at i (astype_row name ordem_qualis cols r))
  = code ordem_qualis (cell_at i r).
Proof.
  intros Hp. unfold cell_at, astype_row. simpl.
  pose proof (update_named_at name (to_category ordem_qualis) cols (cells r) 0 i)
    as H.
  rewrite Nat.sub_0_r in H. rewrite H.
  - apply code_to_category.
  - reflexivity.
  - rewrite Hp. apply elem_of_cons; by left.
Qed.

(** ** The ranking filter *)

Section Filtro.
Context `{RT : Runtime} (env : Env).

Lemma has_column_frame (name : string) (d : DataFrame) (rs : list Row) :
  has_column name {| columns := columns d; rows := rs |} = has_column name d.
Proof. reflexivity. Qed.

Lemma filtrar_valor_sem_estrato (d : DataFrame) (area : string)
    (subarea : option string) (mask : list bool) :
  has_column "estrato_qualis" d = false ->
  mascara d area subarea = Ok mask ->
  filtrar_valor d area subarea
  = Ok {| columns := columns d; rows := select_rows mask (rows d) |}.
Proof.
  intros Hcol Hm. unfold filtrar_valor. rewrite Hm.
  unfold rbind. cbv zeta. rewrite has_column_frame. by rewrite Hcol.
Qed.

Lemma filtrar_valor_com_estrato (d : DataFrame) (area : string)
    (subarea : option string) (mask : list bool) :
  has_column "estrato_qualis" d = true ->
  mascara d area subarea = Ok mask ->
  filtrar_valor d area subarea
  = match positions "estrato_qualis" (columns d) 0 with
    | [i] =>
        let sel := select_rows mask (rows d) in
        Ok {| columns := columns d;
              rows := map (astype_row "estrato_qualis" ordem_qualis (columns d))
                        (take_rows (nargsort (tier_codes i sel)) sel) |}
    | _ => Raise ValueError
    end.
Proof.
  intros Hcol Hm. unfold filtrar_valor. rewrite Hm.
  unfold rbind. cbv zeta. rewrite has_column_frame, Hcol.
  unfold sort_values, astype_category. cbn [columns rows].
  pose proof (has_column_positions "estrato_qualis" d Hcol) as Hne.
  destruct (positions "estrato_qualis" (columns d) 0) as [|i [|j l]] eqn:Hp;
    [done| |reflexivity].
  f_equal. f_equal. unfold column_at. cbn [rows].
  rewrite take_rows_fmap. f_equal.
  match goal with
  | |- take_rows (nargsort ?c) _ = _ =>
      replace c with (tier_codes i (select_rows mask (rows d)));
        [reflexivity|]
  end.
  unfold tier_codes. rewrite !map_map. apply map_ext. intros r.
  symmetry. by apply code_astype_row.
Qed.

Lemma nargsort_in_range (codes : list (option nat)) :
  Forall (fun i => i < length codes) (nargsort codes).
Proof.
  apply Forall_forall. intros i Hi.
  rewrite nargsort_perm in Hi. apply elem_of_seq in Hi. lia.
Qed.

(** The rank the code sorts by is the place in the order written out. *)
Lemma tier_rank_posto (v : value) : tier_rank v = posto_do_estrato v.
Proof.
  destruct v as [| | | |s| |]; try reflexivity.
  unfold tier_rank, code, ordem_qualis, posto_do_estrato.
  cbn -[String.eqb]. rewrite !(String.eqb_sym _ s).
  repeat (destruct (String.eqb s _); [reflexivity|]). reflexivity.
Qed.

Lemma posto_do_estrato_le (v : value) : posto_do_estrato v <= 9.
Proof.
  destruct v as [| | | |s| |]; unfold posto_do_estrato; try lia.
  repeat (destruct (String.eqb s _); [lia|]). lia.
Qed.

(** A categorical cell is the cell itself when its tier is one of the nine
    and NaN otherwise. *)
Lemma to_category_posto (v : value) :
  to_category ordem_qualis v
  = if posto_do_estrato v <? 9 then v else NaN.
Proof.
  rewrite <- tier_rank_posto. unfold to_category, tier_rank.
  destruct (code ordem_qualis v) as [k|] eqn:Hk; simpl.
  - apply code_lt in Hk. cbv in Hk.
    by destruct (Nat.ltb_spec k 9); [|lia].
  - reflexivity.
Qed.

(** Outside the positions of the column named, the cells are kept. *)
Lemma update_named_fora (name : string) (f : value -> value)
    (cols : list string) (cs : list value) (n j : nat) :
  n + j ∉ positions name cols n ->
  nth j (update_named name f cols cs) NaN = nth j cs NaN.
Proof.
  revert cs n j.
  induction cols as [|c cols IH]; intros cs n j Hj; [by destruct cs|].
  destruct cs as [|x cs]; [reflexivity|].
  simpl in Hj. destruct j as [|j]; simpl.
  - destruct (String.eqb c name); [|reflexivity].
    exfalso. apply Hj. rewrite Nat.add_0_r. apply elem_of_cons. by left.
  - apply (IH cs (S n) j). intros Hin. apply Hj.
    replace (n + S j) with (S n + j) by lia.
    destruct (String.eqb c name); [|exact Hin].
    apply elem_of_cons. by right.
Qed.

Lemma update_named_length (name : string) (f : value -> value)
    (cols : list string) (cs : list value) :
  length (update_named name f cols cs) = length cs.
Proof.
  revert cs. induction cols as [|c cols IH]; intros cs; [by destruct cs|].
  destruct cs as [|x cs]; [reflexivity|]. simpl. by rewrite IH.
Qed.

(** The rows a mask computed row by row selects are those that pass the
    test, in their order. *)
Lemma select_rows_filter (p : Row -> bool) (rs : list Row) :
  select_rows (map p rs) rs = List.filter p rs.
Proof.
  induction rs as [|r rs IH]; [reflexivity|].
  simpl. destruct (p r); by rewrite IH.
Qed.

Lemma mask_and_map (p q : Row -> bool) (rs : list Row) :
  mask_and (map p rs) (map q rs) = map (fun r => (p r && q r)%bool) rs.
Proof. induction rs as [|r rs IH]; [reflexivity|]. simpl. by rewrite IH. Qed.

Lemma str_contains_linhas (d : DataFrame) (name pat : string) (m : list bool) :
  str_contains d name pat = Ok m ->
  exists i found,
    positions name (columns d) 0 = [i] /\
    re_compile_ci pat = Some found /\
    m = map (linha_casa found i) (rows d).
Proof.
  unfold str_contains.
  destruct (positions name (columns d) 0) as [|i [|j l]]; try discriminate.
  destruct (str_accessor_ok (column_at i d)); [|discriminate].
  destruct (re_compile_ci pat) as [found|]; [|discriminate].
  intros [= <-]. exists i, found. split; [reflexivity|].
  split; [reflexivity|]. unfold column_at. by rewrite map_map.
Qed.

(** The rows the mask selects are the rows of the catalog, in their order,
    whose area cell is a text the area pattern is found in and that pass
    the test of the sub-topic. *)
Lemma mascara_filtro (d : DataFrame) (area : string) (subarea : option string)
    (mask : list bool) :
  mascara d area subarea = Ok mask ->
  exists i found p_sub,
    positions "area" (columns d) 0 = [i] /\
    re_compile_ci area = Some found /\
    teste_de_subarea d subarea p_sub /\
    select_rows mask (rows d)
    = List.filter (fun r => (linha_casa found i r && p_sub r)%bool) (rows d).
Proof.
  unfold mascara.
  destruct (str_contains d "area" area) as [m1|e] eqn:H1; [|discriminate].
  destruct (str_contains_linhas d "area" area m1 H1) as (i & found & Hp & Hre & ->).
  unfold rbind. intros Hm. exists i, found.
  assert (Hsem : forall m, m = map (linha_casa found i) (rows d) ->
            coluna_de_subarea d subarea = None ->
            exists p_sub,
              positions "area" (columns d) 0 = [i] /\
              re_compile_ci area = Some found /\
              teste_de_subarea d subarea p_sub /\
              select_rows m (rows d)
              = List.filter (fun r => (linha_casa found i r && p_sub r)%bool)
                  (rows d)).
  { intros m -> Hnone. exists (fun _ => true).
    split; [exact Hp|]. split; [exact Hre|]. split.
    - unfold teste_de_subarea. by rewrite Hnone.
    - rewrite select_rows_filter. apply filter_ext. intros r.
      by rewrite andb_true_r. }
  assert (Hcom : forall c m2,
            coluna_de_subarea d subarea = Some c ->
            str_contains d c (or_default subarea "") = Ok m2 ->
            exists p_sub,
              positions "area" (columns d) 0 = [i] /\
              re_compile_ci area = Some found /\
              teste_de_subarea d subarea p_sub /\
              select_rows (mask_and (map (linha_casa found i) (rows d)) m2)
                (rows d)
              = List.filter (fun r => (linha_casa found i r && p_sub r)%bool)
                  (rows d)).
  { intros c m2 Hc H2.
    destruct (str_contains_linhas d c _ m2 H2) as (j & fs & Hpj & Hrej & ->).
    exists (linha_casa fs j). split; [exact Hp|]. split; [exact Hre|]. split.
    - unfold teste_de_subarea. rewrite Hc. by exists j, fs.
    - by rewrite mask_and_map, select_rows_filter. }
  destruct subarea as [sub|].
  - unfold truthy_opt, or_default, has_column in Hm.
    unfold coluna_de_subarea, or_default in Hsem, Hcom.
    destruct (String.eqb sub "") eqn:Hsub; cbn [negb] in Hm.
    + inversion Hm; subst. by apply (Hsem _ eq_refl).
    + destruct (existsb (String.eqb "escopo") (columns d)) eqn:He.
      * destruct (str_contains d "escopo" sub) as [m2|e] eqn:H2; [|discriminate].
        inversion Hm; subst. by apply (Hcom "escopo"%string m2).
      * destruct (existsb (String.eqb "subarea") (columns d)) eqn:Hs.
        -- destruct (str_contains d "subarea" sub) as [m2|e] eqn:H2;
             [|discriminate].
           inversion Hm; subst. by apply (Hcom "subarea"%string m2).
        -- inversion Hm; subst. by apply (Hsem _ eq_refl).
  - unfold truthy_opt in Hm. inversion Hm; subst. by apply (Hsem _ eq_refl).
Qed.

(** C6: on a catalog without the tier column, when the mask is computed
    the filter returns the frame with the columns of the catalog and, in
    the order they have in the catalog, exactly the rows whose cell under
    the one [area] column is a text the area pattern is found in and that
    pass the test of the sub-topic; these are the rows the mask selects. *)
Theorem filtro_sem_estrato_mantem_ordem (area : string)
    (subarea : option string) (w : World) (d : DataFrame) (mask : list bool) :
  catalogo env w = Ok d ->
  has_column "estrato_qualis" d = false ->
  mascara d area subarea = Ok mask ->
  exists out,
    run_filtrar env area subarea w = Ok out /\
    columns out = columns d /\
    rows out = select_rows mask (rows d) /\
    rows out `sublist_of` rows d /\
    exists i found p_sub,
      positions "area" (columns d) 0 = [i] /\
      re_compile_ci area = Some found /\
      teste_de_subarea d subarea p_sub /\
      rows out
      = List.filter (fun r => (linha_casa found i r && p_sub r)%bool) (rows d).
Proof.
  intros Hd Hcol Hm. eexists. split.
  - rewrite run_filtrar_spec, Hd. simpl.
    by apply filtrar_valor_sem_estrato.
  - simpl. split; [reflexivity|]. split; [reflexivity|].
    split; [apply select_rows_sublist|].
    by apply mascara_filtro.
Qed.

(** C2: on a catalog with the tier column, when the mask is computed the
    filter either returns or, when the label is not unique, raises the
    [ValueError] of [sort_values]; no other exception arises, whatever the
    tier cells hold.  The frame returned holds the matching rows of the
    catalog in an order [sel], each with its label and its other cells as
    they are and its tier cell kept when it is one of the nine tiers and
    NaN otherwise.  Places being those of the order
    A1 < A2 < A3 < A4 < B1 < B2 < B3 < B4 < C, with every other value after
    C, the place of the tier never decreases along the frame returned, nor
    along [sel] with the tiers the catalog has; so a row whose tier is not
    in the vocabulary stands after every row whose tier is. *)
Theorem filtro_ordenado_por_estrato (area : string) (subarea : option string)
    (w : World) (d : DataFrame) (mask : list bool) :
  catalogo env w = Ok d ->
  has_column "estrato_qualis" d = true ->
  mascara d area subarea = Ok mask ->
  match run_filtrar env area subarea w with
  | Ok out =>
      exists i sel,
        positions "estrato_qualis" (columns d) 0 = [i] /\
        sel ≡ₚ select_rows mask (rows d) /\
        rows out
        = map (astype_row "estrato_qualis" ordem_qualis (columns d)) sel /\
        StronglySorted le
          (map (fun r => posto_do_estrato (nth i (cells r) NaN)) sel) /\
        (forall a b ra rb,
            sel !! a = Some ra -> sel !! b = Some rb ->
            posto_do_estrato (nth i (cells ra) NaN) = 9 ->
            posto_do_estrato (nth i (cells rb) NaN) < 9 ->
            b < a) /\
        StronglySorted le
          (map (fun r => posto_do_estrato (nth i (cells r) NaN)) (rows out)) /\
        (forall r,
            nth i (cells (astype_row "estrato_qualis" ordem_qualis
                            (columns d) r)) NaN
            = if posto_do_estrato (nth i (cells r) NaN) <? 9
              then nth i (cells r) NaN else NaN) /\
        (forall r,
            let r' := astype_row "estrato_qualis" ordem_qualis (columns d) r in
            label r' = label r /\
            length (cells r') = length (cells r) /\
            forall j, j <> i -> nth j (cells r') NaN = nth j (cells r) NaN) /\
        exists ia found p_sub,
          positions "area" (columns d) 0 = [ia] /\
          re_compile_ci area = Some found /\
          teste_de_subarea d subarea p_sub /\
          sel ≡ₚ List.filter
                   (fun r => (linha_casa found ia r && p_sub r)%bool) (rows d)
  | Raise e =>
      e = ValueError /\ 2 <= length (positions "estrato_qualis" (columns d) 0)
  end.
Proof.
  intros Hd Hcol Hm.
  rewrite run_filtrar_spec, Hd. simpl.
  rewrite (filtrar_valor_com_estrato d area subarea mask Hcol Hm).
  pose proof (has_column_positions "estrato_qualis" d Hcol) as Hne.
  destruct (positions "estrato_qualis" (columns d) 0) as [|i [|j l]] eqn:Hp;
    [done| |simpl; split; [reflexivity|lia]].
  set (sel0 := select_rows mask (rows d)).
  set (sel := take_rows (nargsort (tier_codes i sel0)) sel0).
  assert (Hrank : StronglySorted le (map (fun r => tier_rank (cell_at i r)) sel)).
  { subst sel.
    rewrite (take_rows_map _ {| label := 0; cells := [] |}).
    2:{ pose proof (nargsort_in_range (tier_codes i sel0)) as Hr.
        unfold tier_codes in Hr at 1. by rewrite length_map in Hr. }
    rewrite (map_ext_in _
      (fun j => rank_of (length ordem_qualis) (nth j (tier_codes i sel0) None))).
    - apply nargsort_sorted. intros k Hk.
      apply list_elem_of_fmap in Hk as (r & Hr & _).
      symmetry in Hr. apply code_lt in Hr. lia.
    - intros j Hj. unfold tier_rank. f_equal.
      apply list_elem_of_In in Hj.
      pose proof (nargsort_in_range (tier_codes i sel0)) as Hr.
      rewrite Forall_forall in Hr. specialize (Hr j Hj).
      unfold tier_codes in *. rewrite length_map in Hr.
      rewrite (nth_indep _ None
                 (code ordem_qualis (cell_at i {| label := 0; cells := [] |})))
        by (by rewrite length_map).
      by rewrite (map_nth (fun r => code ordem_qualis (cell_at i r))). }
  assert (Hsorted :
    StronglySorted le (map (fun r => posto_do_estrato (cell_at i r)) sel)).
  { rewrite (map_ext _ (fun r => tier_rank (cell_at i r))); [exact Hrank|].
    intros r. symmetry. apply tier_rank_posto. }
  assert (Hcell : forall r,
            cell_at i (astype_row "estrato_qualis" ordem_qualis (columns d) r)
            = if posto_do_estrato (cell_at i r) <? 9 then cell_at i r else NaN).
  { intros r. unfold cell_at, astype_row. simpl.
    pose proof (update_named_at "estrato_qualis" (to_category ordem_qualis)
                  (columns d) (cells r) 0 i eq_refl) as Hu.
    rewrite Nat.sub_0_r in Hu. rewrite Hu.
    - apply to_category_posto.
    - rewrite Hp. apply elem_of_cons. by left. }
  assert (Hperm : sel ≡ₚ sel0).
  { subst sel. apply take_rows_perm.
    rewrite nargsort_perm. unfold tier_codes. by rewrite length_map. }
  exists i, sel. split; [reflexivity|]. split; [exact Hperm|].
  split; [reflexivity|]. split; [exact Hsorted|].
  split; [|split; [|split; [|split]]].
  - intros a b ra rb Ha Hb Hna Hnb.
    change (posto_do_estrato (cell_at i ra) = 9) in Hna.
    change (posto_do_estrato (cell_at i rb) < 9) in Hnb.
    destruct (lt_eq_lt_dec a b) as [[Hlt|Heq]|Hgt]; [| |exact Hgt].
    + exfalso.
      assert (Hle : posto_do_estrato (cell_at i ra)
                    <= posto_do_estrato (cell_at i rb)).
      { apply (StronglySorted_lookup_lt le _ a b _ _ Hsorted Hlt).
        - change (map (fun r => posto_do_estrato (cell_at i r)) sel)
            with ((fun r => posto_do_estrato (cell_at i r)) <$> sel).
          by rewrite list_lookup_fmap, Ha.
        - change (map (fun r => posto_do_estrato (cell_at i r)) sel)
            with ((fun r => posto_do_estrato (cell_at i r)) <$> sel).
          by rewrite list_lookup_fmap, Hb. }
      lia.
    + rewrite Heq in Ha. rewrite Ha in Hb. inversion Hb; subst. lia.
  - change (StronglySorted le
              (map (fun r => posto_do_estrato (cell_at i r))
                 (map (astype_row "estrato_qualis" ordem_qualis (columns d))
                    sel))).
    rewrite map_map.
    rewrite (map_ext _ (fun r => posto_do_estrato (cell_at i r)));
      [exact Hsorted|].
    intros r. rewrite Hcell.
    destruct (Nat.ltb_spec (posto_do_estrato (cell_at i r)) 9) as [Hlt|Hge];
      [reflexivity|].
    pose proof (posto_do_estrato_le (cell_at i r)). simpl. lia.
  - exact Hcell.
  - intros r. cbn [astype_row label cells]. split; [reflexivity|].
    split; [apply update_named_length|].
    intros j Hj. apply (update_named_fora _ _ _ _ 0 j).
    rewrite Hp. intros Hin. apply elem_of_cons in Hin as [Hin|Hin].
    + simpl in Hin. by apply Hj.
    + by apply elem_of_nil in Hin.
  - destruct (mascara_filtro d area subarea mask Hm)
      as (ia & found & p_sub & Hpa & Hre & Hsub & Hfil).
    exists ia, found, p_sub. split; [exact Hpa|]. split; [exact Hre|].
    split; [exact Hsub|]. rewrite <- Hfil. exact Hperm.
Qed.

Lemma mascara_restringe (d : DataFrame) (area sub : string) (m2 : list bool) :
  mascara d area (Some sub) = Ok m2 ->
  exists m1,
    mascara d area None = Ok m1 /\
    forall rs, select_rows m2 rs `sublist_of` select_rows m1 rs.
Proof.
  unfold mascara. destruct (str_contains d "area" area) as [m1|e];
    [|discriminate].
  simpl. intros Hm. exists m1. split; [reflexivity|]. intros rs.
  destruct (negb (String.eqb sub "")); [|by inversion Hm].
  destruct (has_column "escopo" d).
  - destruct (str_contains d "escopo" _) as [m|e]; [|discriminate].
    inversion Hm; subst. apply select_rows_mask_and.
  - destruct (has_column "subarea" d); [|by inversion Hm].
    destruct (str_contains d "subarea" _) as [m|e]; [|discriminate].
    inversion Hm; subst. apply select_rows_mask_and.
Qed.

Lemma filtrar_valor_restringe (d : DataFrame) (area sub : string)
    (out2 : DataFrame) :
  filtrar_valor d area (Some sub) = Ok out2 ->
  exists out1,
    filtrar_valor d area None = Ok out1 /\ rows out2 ⊆ rows out1.
Proof.
  intros H2.
  destruct (mascara d area (Some sub)) as [m2|e] eqn:Hm2;
    [|unfold filtrar_valor in H2; rewrite Hm2 in H2; discriminate].
  destruct (mascara_restringe d area sub m2 Hm2) as (m1 & Hm1 & Hsub).
  destruct (has_column "estrato_qualis" d) eqn:Hcol.
  - rewrite (filtrar_valor_com_estrato d area _ m2 Hcol Hm2) in H2.
    rewrite (filtrar_valor_com_estrato d area _ m1 Hcol Hm1).
    destruct (positions "estrato_qualis" (columns d) 0) as [|i [|j l]];
      try discriminate.
    inversion H2; subst; clear H2. eexists. split; [reflexivity|].
    cbn [rows]. intros x Hx.
    apply list_elem_of_fmap in Hx as (r & -> & Hr).
    apply list_elem_of_fmap. exists r. split; [reflexivity|].
    rewrite take_rows_perm in Hr
      by (rewrite nargsort_perm; unfold tier_codes; by rewrite length_map).
    rewrite take_rows_perm
      by (rewrite nargsort_perm; unfold tier_codes; by rewrite length_map).
    by apply (sublist_subseteq _ _ (Hsub (rows d))).
  - rewrite (filtrar_valor_sem_estrato d area _ m2 Hcol Hm2) in H2.
    rewrite (filtrar_valor_sem_estrato d area _ m1 Hcol Hm1).
    inversion H2; subst; clear H2. eexists. split; [reflexivity|].
    cbn [rows]. apply sublist_subseteq, Hsub.
Qed.

Lemma mascara_com_subarea (d : DataFrame) (area sub : string) (m2 : list bool) :
  (has_column "escopo" d || has_column "subarea" d)%bool = true ->
  sub <> ""%string ->
  mascara d area (Some sub) = Ok m2 ->
  exists m1 ms,
    mascara d area None = Ok m1 /\
    str_contains d (if has_column "escopo" d then "escopo" else "subarea") sub
    = Ok ms /\
    m2 = mask_and m1 ms.
Proof.
  intros Hcols Hsub. unfold mascara.
  destruct (str_contains d "area" area) as [m1|e]; [|discriminate].
  simpl. apply String.eqb_neq in Hsub. rewrite Hsub. simpl.
  destruct (has_column "escopo" d); simpl in Hcols.
  - destruct (str_contains d "escopo" sub) as [ms|e]; [|discriminate].
    intros [= <-]. by exists m1, ms.
  - rewrite Hcols.
    destruct (str_contains d "subarea" sub) as [ms|e]; [|discriminate].
    intros [= <-]. by exists m1, ms.
Qed.

(** C5: on a catalog with a column [escopo] or [subarea], for a sub-topic
    that is not empty, whenever the filter on the area and the sub-topic
    returns a frame, the filter on the area alone returns one too and
    every row of the first is a row of the second; the mask of the first
    is the mask of the second met with the mask of the sub-topic on
    [escopo], or on [subarea] when there is no [escopo]. *)
Theorem subarea_apenas_restringe (area sub : string) (w : World)
    (d out2 : DataFrame) :
  catalogo env w = Ok d ->
  (has_column "escopo" d || has_column "subarea" d)%bool = true ->
  sub <> ""%string ->
  run_filtrar env area (Some sub) w = Ok out2 ->
  exists out1 m1 ms,
    run_filtrar env area None w = Ok out1 /\
    rows out2 ⊆ rows out1 /\
    mascara d area None = Ok m1 /\
    str_contains d (if has_column "escopo" d then "escopo" else "subarea") sub
    = Ok ms /\
    mascara d area (Some sub) = Ok (mask_and m1 ms).
Proof.
  intros Hd Hcols Hsub H2. rewrite run_filtrar_spec, Hd in *. simpl in *.
  destruct (filtrar_valor_restringe d area sub out2 H2) as (out1 & H1 & Hin).
  destruct (mascara d area (Some sub)) as [m2|e] eqn:Hm2;
    [|unfold filtrar_valor in H2; rewrite Hm2 in H2; discriminate].
  destruct (mascara_com_subarea d area sub m2 Hcols Hsub Hm2)
    as (m1 & ms & Hm1 & Hms & ->).
  by exists out1, m1, ms.
Qed.

End Filtro.

(** ** The theorems at work on the example catalog *)

Lemma falha_do_catalogo_propaga_witness :
  load_revistas (RT := runtime_exemplo) env_sem_arquivo mundo_inicial
  = (Raise (OSError "data/qualis_revistas.csv"), mundo_inicial) /\
  (forall area subarea,
      filtrar_revistas (RT := runtime_exemplo) env_sem_arquivo area subarea
        mundo_inicial
      = (Raise (OSError "data/qualis_revistas.csv"), mundo_inicial)) /\
  (forall area subarea palavras_chave n,
      pipeline (RT := runtime_exemplo) env_sem_arquivo area subarea
        palavras_chave n mundo_inicial
      = (Raise (OSError "data/qualis_revistas.csv"), mundo_inicial)).
Proof.
  exact (falha_do_catalogo_propaga (RT := runtime_exemplo) env_sem_arquivo
           mundo_inicial (OSError "data/qualis_revistas.csv") I eq_refl).
Defined.

Lemma filtro_sem_estrato_mantem_ordem_witness :
  exists out,
    run_filtrar (RT := runtime_exemplo) env_sem_estrato "engenharia" None
      mundo_inicial = Ok out /\
    columns out = columns catalogo_sem_estrato /\
    rows out = select_rows [true; false; true] (rows catalogo_sem_estrato) /\
    rows out `sublist_of` rows catalogo_sem_estrato /\
    exists i found p_sub,
      positions "area" (columns catalogo_sem_estrato) 0 = [i] /\
      re_compile_ci (Runtime := runtime_exemplo) "engenharia" = Some found /\
      teste_de_subarea (RT := runtime_exemplo) catalogo_sem_estrato None p_sub /\
      rows out
      = List.filter (fun r => (linha_casa found i r && p_sub r)%bool)
          (rows catalogo_sem_estrato).
Proof.
  exact (filtro_sem_estrato_mantem_ordem (RT := runtime_exemplo) env_sem_estrato
           "engenharia" None mundo_inicial catalogo_sem_estrato
           [true; false; true] eq_refl eq_refl eq_refl).
Defined.

Lemma filtro_ordenado_por_estrato_witness :
  match run_filtrar (RT := runtime_exemplo) env_catalogo "Engenharia" None
          mundo_inicial with
  | Ok out =>
      exists i sel,
        positions "estrato_qualis" (columns catalogo_normalizado) 0 = [i] /\
        sel ≡ₚ select_rows [true; true; false; true; true]
                 (rows catalogo_normalizado) /\
        rows out = map (astype_row "estrato_qualis" ordem_qualis
                          (columns catalogo_normalizado)) sel /\
        StronglySorted le (map (fun r => posto_do_estrato (nth i (cells r) NaN)) sel) /\
        (forall a b ra rb,
            sel !! a = Some ra -> sel !! b = Some rb ->
            posto_do_estrato (nth i (cells ra) NaN) = 9 ->
            posto_do_estrato (nth i (cells rb) NaN) < 9 ->
            b < a) /\
        StronglySorted le
          (map (fun r => posto_do_estrato (nth i (cells r) NaN)) (rows out)) /\
        (forall r,
            nth i (cells (astype_row "estrato_qualis" ordem_qualis
                            (columns catalogo_normalizado) r)) NaN
            = if posto_do_estrato (nth i (cells r) NaN) <? 9
              then nth i (cells r) NaN else NaN) /\
        (forall r,
            let r' := astype_row "estrato_qualis" ordem_qualis
                        (columns catalogo_normalizado) r in
            label r' = label r /\
            length (cells r') = length (cells r) /\
            forall j, j <> i -> nth j (cells r') NaN = nth j (cells r) NaN) /\
        exists ia found p_sub,
          positions "area" (columns catalogo_normalizado) 0 = [ia] /\
          re_compile_ci (Runtime := runtime_exemplo) "Engenharia" = Some found /\
          teste_de_subarea (RT := runtime_exemplo) catalogo_normalizado None
            p_sub /\
          sel ≡ₚ List.filter
                   (fun r => (linha_casa found ia r && p_sub r)%bool)
                   (rows catalogo_normalizado)
  | Raise e =>
      e = ValueError /\
      2 <= length (positions "estrato_qualis" (columns catalogo_normalizado) 0)
  end.
Proof.
  exact (filtro_ordenado_por_estrato (RT := runtime_exemplo) env_catalogo
           "Engenharia" None mundo_inicial catalogo_normalizado
           [true; true; false; true; true] eq_refl eq_refl eq_refl).
Defined.

Lemma subarea_apenas_restringe_witness :
  exists out1 m1 ms,
    run_filtrar (RT := runtime_exemplo) env_catalogo "Engenharia" None
      mundo_inicial = Ok out1 /\
    rows filtrado_agua ⊆ rows out1 /\
    mascara (RT := runtime_exemplo) catalogo_normalizado "Engenharia" None = Ok m1 /\
    str_contains (RT := runtime_exemplo) catalogo_normalizado "escopo" "agua" = Ok ms /\
    mascara (RT := runtime_exemplo) catalogo_normalizado "Engenharia" (Some "agua"%string)
    = Ok (mask_and m1 ms).
Proof.
  refine (subarea_apenas_restringe (RT := runtime_exemplo) env_catalogo
            "Engenharia" "agua" mundo_inicial catalogo_normalizado
            filtrado_agua eq_refl eq_refl _ eq_refl).
  discriminate.
Defined.

(** Scenario 1 of the specification: of two rows of the same area the one
    of tier A2 is returned before the one of tier B1. *)
Example cenario_dois_estratos :
  run_filtrar (RT := runtime_exemplo)
    (env_exemplo
       (Ok {| columns := ["area"; "estrato_qualis"]%string;
              rows := [ {| label := 0; cells := [VStr "Engenharia"; VStr "B1"] |};
                        {| label := 1; cells := [VStr "Engenharia"; VStr "A2"] |} ] |})
       (RequestFails (RequestException "offline")))
    "Engenharia" None mundo_inicial
  = Ok {| columns := ["area"; "estrato_qualis"]%string;
          rows := [ {| label := 1; cells := [VStr "Engenharia"; VStr "A2"] |};
                    {| label := 0; cells := [VStr "Engenharia"; VStr "B1"] |} ] |}.
Proof. reflexivity. Qed.

(** ** Dedenting keeps the text of every line *)

Section Dedent.
Import Textwrap.

Lemma list_ascii_of_string_app (a b : string) :
  list_ascii_of_string (a +:+ b) = list_ascii_of_string a ++ list_ascii_of_string b.
Proof. induction a as [|c a IH]; simpl; [reflexivity|by rewrite IH]. Qed.

Lemma string_of_list_ascii_app (a b : list ascii) :
  string_of_list_ascii (a ++ b) = string_of_list_ascii a +:+ string_of_list_ascii b.
Proof. induction a as [|c a IH]; simpl; [reflexivity|by rewrite IH]. Qed.

Lemma split_lines_nonempty (s : list ascii) : split_lines s <> [].
Proof.
  destruct s as [|c s]; simpl; [discriminate|].
  destruct (Ascii.eqb c newline); [discriminate|].
  destruct (split_lines s); discriminate.
Qed.

(** The lines of a text cut at a newline are the lines of its two parts. *)
Lemma split_lines_app (x y : list ascii) :
  split_lines (x ++ newline :: y) = split_lines x ++ split_lines y.
Proof.
  induction x as [|c x IH]; simpl.
  - reflexivity.
  - destruct (Ascii.eqb c newline); [by rewrite IH|].
    rewrite IH. pose proof (split_lines_nonempty x) as Hne.
    destruct (split_lines x); [done|reflexivity].
Qed.

Lemma join_lines_elem (l : list ascii) (ls : list (list ascii)) :
  l ∈ ls -> exists pre post, join_lines ls = pre ++ l ++ post.
Proof.
  induction ls as [|l0 ls IH]; intros Hin.
  - by apply elem_of_nil in Hin.
  - apply elem_of_cons in Hin as [->|Hin].
    + exists []. destruct ls as [|l1 ls]; simpl.
      * exists []. by rewrite app_nil_r.
      * by eexists.
    + destruct (IH Hin) as (pre & post & Hj).
      destruct ls as [|l1 ls]; [by apply elem_of_nil in Hin|].
      exists (l0 ++ newline :: pre), post.
      change (join_lines (l0 :: l1 :: ls))
        with (l0 ++ newline :: join_lines (l1 :: ls)).
      rewrite Hj, <- app_assoc. reflexivity.
Qed.

Lemma indent_blank (l : list ascii) : forallb is_blank (indent l) = true.
Proof.
  induction l as [|c l IH]; simpl; [reflexivity|].
  destruct (is_blank c) eqn:Hc; simpl; [by rewrite Hc|reflexivity].
Qed.

Lemma common_prefix_blank (a b : list ascii) :
  forallb is_blank a = true -> forallb is_blank (common_prefix a b) = true.
Proof.
  revert b. induction a as [|x a IH]; intros [|y b] Ha; simpl; try reflexivity.
  simpl in Ha. apply andb_prop in Ha as [Hx Ha].
  destruct (Ascii.eqb x y); simpl; [|reflexivity].
  rewrite Hx. by apply IH.
Qed.

Lemma margin_of_blank (indents : list (list ascii)) :
  Forall (fun i => forallb is_blank i = true) indents ->
  forallb is_blank (margin_of indents) = true.
Proof.
  destruct 1 as [|i rest Hi Hrest]; simpl; [reflexivity|].
  revert i Hi. induction rest as [|j rest IH]; intros i Hi; simpl; [exact Hi|].
  inversion Hrest; subst. apply IH; [done|]. by apply common_prefix_blank.
Qed.

(** Removing a margin of blanks from a line leaves the text that follows
    the blanks the line starts with. *)
Lemma remove_margin_keeps (m ws : list ascii) (c : ascii) (rest : list ascii) :
  forallb is_blank m = true ->
  is_blank c = false ->
  exists ws', remove_margin m (ws ++ c :: rest) = ws' ++ c :: rest.
Proof.
  intros Hm Hc. unfold remove_margin.
  destruct (strip_prefix m (ws ++ c :: rest)) as [l'|] eqn:Hs; [|by exists ws].
  revert ws Hs. induction m as [|x m IH]; intros ws Hs.
  - simpl in Hs. inversion Hs; subst. by exists ws.
  - simpl in Hm. apply andb_prop in Hm as [Hx Hm].
    destruct ws as [|y ws]; simpl in Hs.
    + destruct (Ascii.eqb x c) eqn:Hxc; [|discriminate].
      apply Ascii.eqb_eq in Hxc. subst. congruence.
    + destruct (Ascii.eqb x y); [|discriminate]. by apply (IH Hm ws).
Qed.

Lemma normalize_text (ws : list ascii) (c : ascii) (rest : list ascii) :
  is_blank c = false -> normalize (ws ++ c :: rest) = ws ++ c :: rest.
Proof.
  intros Hc. unfold normalize.
  rewrite forallb_app. simpl. rewrite Hc, andb_false_r. reflexivity.
Qed.

(** Whatever the other lines are, the text of a line after its blanks is
    in the dedented text. *)
Lemma dedent_chars_keeps (text ws : list ascii) (c : ascii) (rest : list ascii) :
  (ws ++ c :: rest) ∈ split_lines text ->
  is_blank c = false ->
  exists pre post, dedent_chars text = pre ++ (c :: rest) ++ post.
Proof.
  intros Hin Hc. unfold dedent_chars.
  set (lines := map normalize (split_lines text)).
  set (m := margin_of (map indent (List.filter has_text lines))).
  assert (Hm : forallb is_blank m = true).
  { apply margin_of_blank, Forall_forall. intros i Hi.
    apply list_elem_of_fmap in Hi as (l & -> & _). apply indent_blank. }
  destruct (remove_margin_keeps m ws c rest Hm Hc) as (ws' & Hr).
  assert (Hl : (ws' ++ c :: rest) ∈ map (remove_margin m) lines).
  { rewrite <- Hr. apply list_elem_of_fmap. eexists. split; [reflexivity|].
    subst lines. rewrite <- (normalize_text ws c rest Hc).
    apply list_elem_of_fmap. by eexists. }
  destruct (join_lines_elem _ _ Hl) as (pre & post & Hj).
  exists (pre ++ ws'), post. rewrite Hj, <- !app_assoc. reflexivity.
Qed.

End Dedent.

(** ** The context handed to the text-generation service *)

Section Relatorio.
Context `{RT : Runtime}.

Lemma append_assoc (a b c : string) : (a +:+ b) +:+ c = a +:+ (b +:+ c).
Proof.
  induction a as [|x a IH]; [reflexivity|].
  change (String x ((a +:+ b) +:+ c) = String x (a +:+ (b +:+ c))).
  by f_equal.
Qed.

Lemma prompt_tarefa_newline :
  prompt_tarefa = String Textwrap.newline corpo_tarefa.
Proof. reflexivity. Qed.

(** A line of the task is in the dedented prompt whatever text stands
    before the task. *)
Lemma tarefa_no_prompt (before needle : string) (k : nat) (ws : list ascii)
    (c : ascii) (rest : list ascii) :
  list_ascii_of_string needle = c :: rest ->
  Textwrap.is_blank c = false ->
  Textwrap.split_lines (list_ascii_of_string corpo_tarefa) !! k
  = Some (ws ++ c :: rest) ->
  contains (Textwrap.dedent (before +:+ prompt_tarefa)) needle.
Proof.
  intros Hn Hc Hk. unfold Textwrap.dedent.
  rewrite list_ascii_of_string_app, prompt_tarefa_newline.
  change (list_ascii_of_string (String Textwrap.newline corpo_tarefa))
    with (Textwrap.newline :: list_ascii_of_string corpo_tarefa).
  destruct (dedent_chars_keeps
              (list_ascii_of_string before ++
               Textwrap.newline :: list_ascii_of_string corpo_tarefa)
              ws c rest) as (pre & post & Hd).
  - rewrite split_lines_app. apply elem_of_app. right.
    by eapply list_elem_of_lookup_2.
  - exact Hc.
  - rewrite Hd, !string_of_list_ascii_app, <- Hn.
    rewrite string_of_list_ascii_of_string.
    by exists (string_of_list_ascii pre), (string_of_list_ascii post).
Qed.

Lemma user_prompt_tarefa (area : string) (subarea palavras_chave : option string)
    (revistas_records : list value) (artigos : list artigo) :
  exists before,
    user_prompt area subarea palavras_chave revistas_records artigos
    = before +:+ prompt_tarefa.
Proof.
  unfold user_prompt.
  exists (prompt_intro +:+ area +:+
          prompt_subarea +:+ or_default subarea "não informado" +:+
          prompt_palavras +:+ or_default palavras_chave "não informado" +:+
          prompt_revistas +:+ py_repr (VList revistas_records) +:+
          prompt_artigos +:+ py_repr (VList (map dict_of_artigo artigos))).
  by rewrite !append_assoc.
Qed.

Lemma montar_mensagens_contrato (area : string) (subarea : option string)
    (revistas : DataFrame) (artigos : list artigo)
    (palavras_chave : option string) :
  exists user,
    montar_mensagens area subarea revistas artigos palavras_chave
    = [ {| role := "system"; content := system_content |};
        {| role := "user"; content := user |} ] /\
    contains user regra_apenas_dados /\
    contains user regra_informacao_ausente /\
    contains user regra_ate_dez.
Proof.
  unfold montar_mensagens.
  destruct (user_prompt_tarefa area subarea palavras_chave
              (to_records revistas) artigos) as (before & ->).
  eexists. split; [reflexivity|]. split; [|split].
  - eapply (tarefa_no_prompt before regra_apenas_dados 49
              (list_ascii_of_string "    "));
      [reflexivity | reflexivity | by vm_compute].
  - eapply (tarefa_no_prompt before regra_informacao_ausente 50
              (list_ascii_of_string "    "));
      [reflexivity | reflexivity | by vm_compute].
  - eapply (tarefa_no_prompt before regra_ate_dez 23
              (list_ascii_of_string "         "));
      [reflexivity | reflexivity | by vm_compute].
Qed.

(** C7: whatever the area, the sub-topic, the keywords, the journal rows
    and the articles, [gerar_relatorio_ia] sends one list of two messages,
    the fixed system message and a user message, and the user message
    holds the three rules of the task: use only the data given and invent
    neither a DOI nor a journal, say so when a piece of information is not
    in the data, and pick at most 10 articles. *)
Theorem contrato_fixo_no_contexto (env : Env) (area : string)
    (subarea : option string) (revistas : loc) (artigos : list artigo)
    (palavras_chave : option string) (w : World) :
  exists user,
    chats (snd (gerar_relatorio_ia env area subarea revistas artigos
                  palavras_chave w))
    = chats w ++ [[ {| role := "system"; content := system_content |};
                    {| role := "user"; content := user |} ]] /\
    contains user regra_apenas_dados /\
    contains user regra_informacao_ausente /\
    contains user regra_ate_dez.
Proof.
  rewrite gerar_relatorio_ia_spec. cbn [snd chats].
  destruct (montar_mensagens_contrato area subarea (deref revistas w) artigos
              palavras_chave) as (user & -> & H1 & H2 & H3).
  by exists user.
Qed.

(** C10: two calls of [gerar_relatorio_ia] with the same parameters, the
    same articles and frames of journals that hold the same value send the
    same message list, [montar_mensagens] of these inputs, whatever the
    worlds they run in and whatever the collaborators answer. *)
Theorem montagem_deterministica (env1 env2 : Env) (area : string)
    (subarea : option string) (revistas1 revistas2 : loc)
    (artigos : list artigo) (palavras_chave : option string) (w1 w2 : World) :
  deref revistas1 w1 = deref revistas2 w2 ->
  let payload :=
    montar_mensagens area subarea (deref revistas1 w1) artigos palavras_chave in
  chats (snd (gerar_relatorio_ia env1 area subarea revistas1 artigos
                palavras_chave w1)) = chats w1 ++ [payload] /\
  chats (snd (gerar_relatorio_ia env2 area subarea revistas2 artigos
                palavras_chave w2)) = chats w2 ++ [payload].
Proof.
  intros Heq payload. rewrite !gerar_relatorio_ia_spec. cbn [snd chats].
  subst payload. by rewrite Heq.
Qed.

End Relatorio.

Lemma montagem_deterministica_witness :
  let payload :=
    montar_mensagens (RT := runtime_exemplo) "Engenharia" (Some "agua"%string)
      catalogo_normalizado [] None in
  chats (snd (gerar_relatorio_ia (RT := runtime_exemplo) env_catalogo
                "Engenharia" (Some "agua"%string) 0 [] None mundo_um))
  = chats mundo_um ++ [payload] /\
  chats (snd (gerar_relatorio_ia (RT := runtime_exemplo) env_sem_arquivo
                "Engenharia" (Some "agua"%string) 1 [] None mundo_dois))
  = chats mundo_dois ++ [payload].
Proof.
  exact (montagem_deterministica (RT := runtime_exemplo) env_catalogo
           env_sem_arquivo "Engenharia" (Some "agua"%string) 0 1 [] None
           mundo_um mundo_dois eq_refl).
Defined.

(** * Further properties of the code *)

(** ** The cached catalog *)

Section Cache.
Context `{RT : Runtime}.

(** X1: once [load_revistas] has returned, the value it returned is the
    cached one, and every later load and filter is served from the cache:
    they give what they gave before whatever the file has become since,
    even when it can no longer be read. *)
Theorem load_revistas_serve_do_cache (env env' : Env) (w w' : World) (l : loc) :
  load_revistas env w = (Ok l, w') ->
  cache w' = Some (deref l w') /\
  run_load env' w' = Ok (deref l w') /\
  (forall area subarea,
      run_filtrar env' area subarea w' = run_filtrar env area subarea w).
Proof.
  intros Hl. rewrite load_revistas_spec in Hl.
  destruct (catalogo env w) as [d|e] eqn:Hd; [|discriminate].
  inversion Hl; subst; clear Hl.
  assert (Hderef : deref (length (heap w))
                     (com_catalogo w (Some d) (heap w ++ [d])) = d).
  { unfold deref, com_catalogo. simpl. by rewrite lookup_snoc_here. }
  rewrite Hderef. split; [reflexivity|]. split.
  - by rewrite run_load_spec.
  - intros area subarea. rewrite !run_filtrar_spec, Hd. reflexivity.
Qed.

(** X2: on a cache miss with a readable file, [load_revistas] hands out a
    new object, at a position no object had before, that holds the rows of
    the file under the stripped and lower-cased column names; that same
    value is cached and the objects already in the heap are as they were. *)
Theorem load_revistas_normaliza (env : Env) (w : World) (d0 : DataFrame) :
  cache w = None ->
  read_csv env = Ok d0 ->
  let d := {| columns := map (fun c => str_lower (str_strip c)) (columns d0);
              rows := rows d0 |} in
  exists w',
    load_revistas env w = (Ok (length (heap w)), w') /\
    heap w !! length (heap w) = None /\
    deref (length (heap w)) w' = d /\
    cache w' = Some d /\
    take (length (heap w)) (heap w') = heap w.
Proof.
  intros Hc Hf d. rewrite load_revistas_spec.
  unfold catalogo, ler_arquivo. rewrite Hc, Hf. simpl.
  eexists. split; [reflexivity|]. split; [|split; [|split]].
  - apply lookup_ge_None. lia.
  - unfold deref, com_catalogo. simpl. by rewrite lookup_snoc_here.
  - reflexivity.
  - simpl. by rewrite take_app_length.
Qed.

End Cache.

Lemma load_revistas_serve_do_cache_witness :
  cache (com_catalogo mundo_inicial (Some catalogo_normalizado)
           [catalogo_normalizado])
  = Some (deref 0 (com_catalogo mundo_inicial (Some catalogo_normalizado)
                     [catalogo_normalizado])) /\
  run_load (RT := runtime_exemplo) env_sem_arquivo
    (com_catalogo mundo_inicial (Some catalogo_normalizado) [catalogo_normalizado])
  = Ok (deref 0 (com_catalogo mundo_inicial (Some catalogo_normalizado)
                   [catalogo_normalizado])) /\
  (forall area subarea,
      run_filtrar (RT := runtime_exemplo) env_sem_arquivo area subarea
        (com_catalogo mundo_inicial (Some catalogo_normalizado)
           [catalogo_normalizado])
      = run_filtrar (RT := runtime_exemplo) env_catalogo area subarea
          mundo_inicial).
Proof.
  exact (load_revistas_serve_do_cache (RT := runtime_exemplo) env_catalogo
           env_sem_arquivo mundo_inicial _ 0 eq_refl).
Defined.

Lemma load_revistas_normaliza_witness :
  exists w',
    load_revistas (RT := runtime_exemplo) env_catalogo mundo_inicial
    = (Ok 0, w') /\
    heap mundo_inicial !! 0 = None /\
    deref 0 w' = catalogo_normalizado /\
    cache w' = Some catalogo_normalizado /\
    take 0 (heap w') = heap mundo_inicial.
Proof.
  exact (load_revistas_normaliza (RT := runtime_exemplo) env_catalogo
           mundo_inicial catalogo_exemplo eq_refl eq_refl).
Defined.

(** ** What the filter returns *)

Section FiltroLinhas.
Context `{RT : Runtime} (env : Env).

Lemma nth_update_named (name : string) (f : value -> value)
    (cols : list string) (cs : list value) (j : nat) :
  f NaN = NaN ->
  nth j (update_named name f cols cs) NaN
  = match cols !! j with
    | Some c => if String.eqb c name then f (nth j cs NaN) else nth j cs NaN
    | None => nth j cs NaN
    end.
Proof.
  intros HNaN. revert cs j.
  induction cols as [|col cols IH]; intros cs j; [by destruct cs|].
  destruct cs as [|c cs].
  - simpl. destruct j; simpl.
    + rewrite HNaN. by destruct (String.eqb col name).
    + destruct (cols !! j) as [c'|]; [|reflexivity].
      rewrite HNaN. by destruct (String.eqb c' name).
  - destruct j; simpl; [reflexivity|]. apply IH.
Qed.

(** A converted row has the cells of the row, those under the tier column
    made categorical. *)
Lemma cell_at_astype_row (cols : list string) (r : Row) (j : nat) :
  cell_at j (astype_row "estrato_qualis" ordem_qualis cols r)
  = match cols !! j with
    | Some c =>
        if String.eqb c "estrato_qualis"
        then to_category ordem_qualis (cell_at j r)
        else cell_at j r
    | None => cell_at j r
    end.
Proof. unfold cell_at, astype_row. simpl. by apply nth_update_named. Qed.

Lemma has_column_lookup (name : string) (d : DataFrame) (j : nat) (c : string) :
  has_column name d = false -> columns d !! j = Some c ->
  String.eqb c name = false.
Proof.
  unfold has_column. intros Hex Hj.
  destruct (String.eqb c name) eqn:Hc; [|reflexivity].
  apply String.eqb_eq in Hc. subst c.
  assert (Hin : existsb (String.eqb name) (columns d) = true).
  { apply existsb_exists. exists name. split.
    - apply list_elem_of_In. by eapply list_elem_of_lookup_2.
    - apply String.eqb_refl. }
  congruence.
Qed.

Lemma index_of_elem (s : string) (l : list string) (i k : nat) :
  index_of s l i = Some k -> s ∈ l.
Proof.
  revert i. induction l as [|x l IH]; intros i; simpl; [discriminate|].
  destruct (String.eqb x s) eqn:Hx.
  - apply String.eqb_eq in Hx. subst. intros _. by left.
  - intros H. right. by eapply IH.
Qed.

(** A categorical cell is a category or missing. *)
Lemma to_category_canonical (categories : list string) (v : value) :
  to_category categories v = NaN \/
  exists s, to_category categories v = VStr s /\ v = VStr s /\ s ∈ categories.
Proof.
  unfold to_category. destruct (code categories v) as [k|] eqn:Hk; [|by left].
  right. destruct v; simpl in Hk; try discriminate.
  eexists. split; [reflexivity|]. split; [reflexivity|].
  by eapply index_of_elem.
Qed.

Lemma take_rows_elem (idx : list nat) (rs : list Row) (r : Row) :
  r ∈ take_rows idx rs -> r ∈ rs.
Proof.
  unfold take_rows. intros Hin.
  apply list_elem_of_omap in Hin as (i & _ & Hi).
  by eapply list_elem_of_lookup_2.
Qed.

Lemma take_rows_length (idx : list nat) (rs : list Row) :
  idx ≡ₚ seq 0 (length rs) -> length (take_rows idx rs) = length rs.
Proof. intros Hp. by rewrite (take_rows_perm idx rs Hp). Qed.

Lemma tier_codes_length (i : nat) (rs : list Row) :
  length (tier_codes i rs) = length rs.
Proof. unfold tier_codes. by rewrite length_map. Qed.

(** What [filtrar_revistas] returns on the catalog [d], in both cases. *)
Lemma run_filtrar_rows (area : string) (subarea : option string) (w : World)
    (d out : DataFrame) :
  catalogo env w = Ok d ->
  run_filtrar env area subarea w = Ok out ->
  exists mask sel,
    mascara d area subarea = Ok mask /\
    sel ≡ₚ select_rows mask (rows d) /\
    columns out = columns d /\
    rows out = if has_column "estrato_qualis" d
               then map (astype_row "estrato_qualis" ordem_qualis (columns d)) sel
               else sel.
Proof.
  intros Hd Hout. rewrite run_filtrar_spec, Hd in Hout. simpl in Hout.
  destruct (mascara d area subarea) as [mask|e] eqn:Hm;
    [|unfold filtrar_valor in Hout; rewrite Hm in Hout; discriminate].
  exists mask.
  destruct (has_column "estrato_qualis" d) eqn:Hcol.
  - rewrite (filtrar_valor_com_estrato d area subarea mask Hcol Hm) in Hout.
    destruct (positions "estrato_qualis" (columns d) 0) as [|i [|j l]];
      try discriminate.
    inversion Hout; subst; clear Hout. eexists. split; [reflexivity|].
    split; [|split; reflexivity].
    apply take_rows_perm. by rewrite nargsort_perm, tier_codes_length.
  - rewrite (filtrar_valor_sem_estrato d area subarea mask Hcol Hm) in Hout.
    inversion Hout; subst; clear Hout. exists (select_rows mask (rows d)).
    by repeat split.
Qed.

(** Every row of the frame returned is a row of the catalog with, at most,
    its tier cells made categorical. *)
Lemma run_filtrar_celulas (area : string) (subarea : option string)
    (w : World) (d out : DataFrame) (r : Row) :
  catalogo env w = Ok d ->
  run_filtrar env area subarea w = Ok out ->
  r ∈ rows out ->
  exists r0,
    r0 ∈ rows d /\ label r = label r0 /\
    forall j,
      cell_at j r
      = match columns d !! j with
        | Some c =>
            if String.eqb c "estrato_qualis"
            then to_category ordem_qualis (cell_at j r0)
            else cell_at j r0
        | None => cell_at j r0
        end.
Proof.
  intros Hd Hout Hr.
  destruct (run_filtrar_rows area subarea w d out Hd Hout)
    as (mask & sel & Hm & Hsel & Hcols & Hrows).
  rewrite Hrows in Hr.
  assert (Hin : forall r0, r0 ∈ sel -> r0 ∈ rows d).
  { intros r0 H0. rewrite Hsel in H0.
    by apply (sublist_subseteq _ _ (select_rows_sublist mask (rows d))). }
  destruct (has_column "estrato_qualis" d) eqn:Hcol.
  - apply list_elem_of_fmap in Hr as (r0 & -> & H0).
    exists r0. split; [by apply Hin|]. split; [reflexivity|].
    intros j. apply cell_at_astype_row.
  - exists r. split; [by apply Hin|]. split; [reflexivity|].
    intros j. destruct (columns d !! j) as [c|] eqn:Hj; [|reflexivity].
    by rewrite (has_column_lookup _ d j c Hcol Hj).
Qed.

(** X3: the frame returned has the columns of the catalog and no more rows
    than it; every row of it is a row of the catalog under the same label
    whose cells are untouched, except that a cell under the tier column
    has been made categorical. *)
Theorem filtro_linhas_do_catalogo (area : string) (subarea : option string)
    (w : World) (d out : DataFrame) :
  catalogo env w = Ok d ->
  run_filtrar env area subarea w = Ok out ->
  columns out = columns d /\
  length (rows out) <= length (rows d) /\
  forall r, r ∈ rows out ->
    exists r0,
      r0 ∈ rows d /\ label r = label r0 /\
      forall j,
        cell_at j r
        = match columns d !! j with
          | Some c =>
              if String.eqb c "estrato_qualis"
              then to_category ordem_qualis (cell_at j r0)
              else cell_at j r0
          | None => cell_at j r0
          end.
Proof.
  intros Hd Hout.
  destruct (run_filtrar_rows area subarea w d out Hd Hout)
    as (mask & sel & Hm & Hsel & Hcols & Hrows).
  pose proof (sublist_length _ _ (select_rows_sublist mask (rows d))) as Hlen.
  split; [exact Hcols|]. split.
  - rewrite Hrows. destruct (has_column "estrato_qualis" d);
      rewrite ?length_map, Hsel; exact Hlen.
  - intros r Hr. by apply (run_filtrar_celulas area subarea w d out r).
Qed.

(** X4: in the frame returned every cell under the tier column is one of
    the nine tiers or NaN: a value outside the vocabulary is not shown to
    the text-generation service, it has become NaN. *)
Theorem filtro_estrato_canonico (area : string) (subarea : option string)
    (w : World) (d out : DataFrame) (r : Row) (j : nat) :
  catalogo env w = Ok d ->
  run_filtrar env area subarea w = Ok out ->
  r ∈ rows out ->
  columns out !! j = Some "estrato_qualis"%string ->
  cell_at j r = NaN \/ exists s, cell_at j r = VStr s /\ s ∈ ordem_qualis.
Proof.
  intros Hd Hout Hr Hj.
  destruct (run_filtrar_rows area subarea w d out Hd Hout)
    as (_ & _ & _ & _ & Hcols & _).
  destruct (run_filtrar_celulas area subarea w d out r Hd Hout Hr)
    as (r0 & _ & _ & Hcell).
  rewrite (Hcell j). rewrite Hcols in Hj. rewrite Hj. simpl.
  destruct (to_category_canonical ordem_qualis (cell_at j r0))
    as [Hn|(s & Hs & _ & Hin)]; [by left|].
  right. by exists s.
Qed.

End FiltroLinhas.

(** ** Matching and its failures *)

Section FiltroCasamento.
Context `{RT : Runtime} (env : Env).

(** X5: an empty sub-topic, and any sub-topic on a catalog with neither an
    [escopo] nor a [subarea] column, changes nothing: the call does what
    the call without sub-topic does, result and world alike. *)
Theorem subarea_sem_efeito (area sub : string) (w : World) (d : DataFrame) :
  catalogo env w = Ok d ->
  sub = ""%string \/
  (has_column "escopo" d = false /\ has_column "subarea" d = false) ->
  filtrar_revistas env area (Some sub) w = filtrar_revistas env area None w.
Proof.
  intros Hd Hcase. rewrite !filtrar_revistas_spec, Hd.
  assert (Hm : mascara d area (Some sub) = mascara d area None).
  { unfold mascara. destruct (str_contains d "area" area) as [m|e];
      [|reflexivity]. simpl.
    destruct Hcase as [->|[He Hs]]; [reflexivity|].
    rewrite He, Hs. by destruct (negb (String.eqb sub "")). }
  by rewrite Hm.
Qed.

(** X6: on a catalog without an [area] column the filter raises
    [KeyError('area')]; the catalog stays cached and no frame is built
    beyond the one [load_revistas] handed out. *)
Theorem filtro_sem_coluna_area (area : string) (subarea : option string)
    (w : World) (d : DataFrame) :
  catalogo env w = Ok d ->
  has_column "area" d = false ->
  filtrar_revistas env area subarea w
  = (Raise (KeyError "area"), com_catalogo w (Some d) (heap w ++ [d])).
Proof.
  intros Hd Hcol. rewrite filtrar_revistas_spec, Hd.
  unfold mascara, str_contains. by rewrite (positions_none "area" d Hcol).
Qed.

(** X7: the area is compiled as a pattern: when the [area] column is a
    text column and the pattern does not compile, the filter raises the
    error of the compilation, whatever the rows are. *)
Theorem filtro_padrao_invalido (area : string) (subarea : option string)
    (w : World) (d : DataFrame) (i : nat) :
  catalogo env w = Ok d ->
  positions "area" (columns d) 0 = [i] ->
  str_accessor_ok (column_at i d) = true ->
  re_compile_ci area = None ->
  run_filtrar env area subarea w = Raise (ReError area).
Proof.
  intros Hd Hp Hacc Hre. rewrite run_filtrar_spec, Hd. simpl.
  unfold filtrar_valor, mascara, str_contains. by rewrite Hp, Hacc, Hre.
Qed.

Lemma str_contains_ok (d : DataFrame) (name pat : string) (m : list bool) :
  str_contains d name pat = Ok m ->
  exists i found,
    positions name (columns d) 0 = [i] /\
    re_compile_ci pat = Some found /\
    m = map (fun r => contains_cell found (cell_at i r)) (rows d).
Proof.
  unfold str_contains.
  destruct (positions name (columns d) 0) as [|i [|j l]]; try discriminate.
  destruct (str_accessor_ok (column_at i d)); [|discriminate].
  destruct (re_compile_ci pat) as [found|]; [|discriminate].
  intros [= <-]. exists i, found. split; [reflexivity|].
  split; [reflexivity|]. unfold column_at. by rewrite map_map.
Qed.

Lemma select_rows_map_elem (p : Row -> bool) (rs : list Row) (r : Row) :
  r ∈ select_rows (map p rs) rs <-> r ∈ rs /\ p r = true.
Proof.
  induction rs as [|x rs IH]; simpl.
  - split; [intros H; by apply elem_of_nil in H|intros [H _]; exact H].
  - destruct (p x) eqn:Hx.
    + rewrite !elem_of_cons, IH. split.
      * intros [->|[H1 H2]]; [by split; [left|]|by split; [right|]].
      * intros [[->|H1] H2]; [by left|by right].
    + rewrite elem_of_cons, IH. split.
      * intros [H1 H2]. by split; [right|].
      * intros [[->|H1] H2]; [congruence|done].
Qed.

Lemma mask_and_length (m1 m2 : list bool) :
  length m2 = length m1 -> length (mask_and m1 m2) = length m1.
Proof.
  revert m2. induction m1 as [|b m1 IH]; intros [|b2 m2]; simpl; try done.
  intros [= H]. by rewrite IH.
Qed.

Lemma positions_lookup (name : string) (cols : list string) (n i : nat) :
  i ∈ positions name cols n -> cols !! (i - n) = Some name.
Proof.
  revert n. induction cols as [|c cols IH]; intros n; simpl.
  - intros H. by apply elem_of_nil in H.
  - destruct (String.eqb c name) eqn:Hc.
    + intros H. apply elem_of_cons in H as [->|H].
      * rewrite Nat.sub_diag. simpl. apply String.eqb_eq in Hc. by subst.
      * pose proof (positions_ge _ _ _ _ H) as Hge.
        replace (i - n) with (S (i - S n)) by lia. by apply IH.
    + intros H. pose proof (positions_ge _ _ _ _ H) as Hge.
      replace (i - n) with (S (i - S n)) by lia. by apply IH.
Qed.

(** The area cell of a row is the same before and after the conversion of
    the tier column. *)
Lemma cell_at_area_astype (cols : list string) (i : nat) (r : Row) :
  positions "area" cols 0 = [i] ->
  cell_at i (astype_row "estrato_qualis" ordem_qualis cols r) = cell_at i r.
Proof.
  intros Hp. rewrite cell_at_astype_row.
  assert (Hi : cols !! i = Some "area"%string).
  { pose proof (positions_lookup "area" cols 0 i) as H.
    rewrite Nat.sub_0_r in H. apply H. rewrite Hp. by left. }
  by rewrite Hi.
Qed.

(** The rows the mask of the area selects are the rows whose area cell is a
    text the pattern is found in; a sub-topic only takes rows away. *)
Lemma mascara_area (d : DataFrame) (area : string) (subarea : option string)
    (mask : list bool) :
  mascara d area subarea = Ok mask ->
  exists i found,
    positions "area" (columns d) 0 = [i] /\
    re_compile_ci area = Some found /\
    (forall r, r ∈ select_rows mask (rows d) ->
       r ∈ rows d /\ contains_cell found (cell_at i r) = true) /\
    (truthy_opt subarea = false ->
     forall r, r ∈ rows d -> contains_cell found (cell_at i r) = true ->
       r ∈ select_rows mask (rows d)).
Proof.
  intros Hm.
  assert (Harea : exists m1, str_contains d "area" area = Ok m1 /\
            (forall rs, select_rows mask rs `sublist_of` select_rows m1 rs) /\
            (truthy_opt subarea = false -> mask = m1)).
  { unfold mascara in Hm.
    destruct (str_contains d "area" area) as [m1|e]; [|discriminate].
    simpl in Hm. exists m1. split; [reflexivity|].
    destruct (truthy_opt subarea).
    - split; [|discriminate]. intros rs.
      destruct (has_column "escopo" d).
      + destruct (str_contains d "escopo" _); [|discriminate].
        inversion Hm; subst. apply select_rows_mask_and.
      + destruct (has_column "subarea" d).
        * destruct (str_contains d "subarea" _); [|discriminate].
          inversion Hm; subst. apply select_rows_mask_and.
        * by inversion Hm.
    - inversion Hm; subst. by split. }
  destruct Harea as (m1 & H1 & Hsub & Heq).
  destruct (str_contains_ok d "area" area m1 H1) as (i & found & Hp & Hre & ->).
  exists i, found. split; [exact Hp|]. split; [exact Hre|]. split.
  - intros r Hr.
    apply (sublist_subseteq _ _ (Hsub (rows d))) in Hr.
    by apply select_rows_map_elem in Hr.
  - intros Hfalsy r Hr Hc. rewrite (Heq Hfalsy).
    by apply select_rows_map_elem.
Qed.

(** X8: every row returned has, under the one [area] column, a text in
    which the compiled area pattern is found (a missing or non-text area
    never matches); and without a sub-topic every such row of the catalog
    is returned, with its tier made categorical when there is a tier
    column. *)
Theorem filtro_casa_area (area : string) (subarea : option string)
    (w : World) (d out : DataFrame) :
  catalogo env w = Ok d ->
  run_filtrar env area subarea w = Ok out ->
  exists i found,
    positions "area" (columns d) 0 = [i] /\
    re_compile_ci area = Some found /\
    (forall r, r ∈ rows out ->
       exists s, cell_at i r = VStr s /\ found s = true) /\
    (truthy_opt subarea = false ->
     forall r0 s, r0 ∈ rows d -> cell_at i r0 = VStr s -> found s = true ->
       (if has_column "estrato_qualis" d
        then astype_row "estrato_qualis" ordem_qualis (columns d) r0
        else r0) ∈ rows out).
Proof.
  intros Hd Hout.
  destruct (run_filtrar_rows env area subarea w d out Hd Hout)
    as (mask & sel & Hm & Hsel & _ & Hrows).
  destruct (mascara_area d area subarea mask Hm)
    as (i & found & Hp & Hre & Hsound & Hcomplete).
  exists i, found. split; [exact Hp|]. split; [exact Hre|]. split.
  - intros r Hr. rewrite Hrows in Hr.
    assert (Hcell : forall r1, r1 ∈ sel ->
              exists s, cell_at i r1 = VStr s /\ found s = true).
    { intros r1 H1. rewrite Hsel in H1. apply Hsound in H1 as [_ Hc].
      unfold contains_cell in Hc.
      destruct (cell_at i r1); try discriminate. by eexists. }
    destruct (has_column "estrato_qualis" d).
    + apply list_elem_of_fmap in Hr as (r1 & -> & H1).
      rewrite (cell_at_area_astype _ i r1 Hp). by apply Hcell.
    + by apply Hcell.
  - intros Hfalsy r0 s H0 Hs Hf. rewrite Hrows.
    assert (Hin : r0 ∈ sel).
    { rewrite Hsel. apply (Hcomplete Hfalsy r0 H0).
      unfold contains_cell. by rewrite Hs. }
    destruct (has_column "estrato_qualis" d); [|exact Hin].
    apply list_elem_of_fmap. by exists r0.
Qed.

Lemma select_rows_none (mask : list bool) (rs : list Row) :
  Forall (fun b => b = false) mask -> select_rows mask rs = [].
Proof.
  intros Hall. revert rs. induction Hall as [|b mask -> _ IH]; intros rs;
    [by destruct rs|].
  destruct rs; simpl; [reflexivity|apply IH].
Qed.

Lemma take_rows_nil (idx : list nat) : take_rows idx [] = [].
Proof.
  unfold take_rows. induction idx as [|i idx IH]; [reflexivity|].
  simpl. exact IH.
Qed.

(** X9: when no row matches, the filter raises nothing: it returns the
    frame with the columns of the catalog and no rows (the case of a tier
    column under a repeated label apart). *)
Theorem filtro_sem_resultados (area : string) (subarea : option string)
    (w : World) (d : DataFrame) (mask : list bool) :
  catalogo env w = Ok d ->
  mascara d area subarea = Ok mask ->
  Forall (fun b => b = false) mask ->
  length (positions "estrato_qualis" (columns d) 0) <= 1 ->
  run_filtrar env area subarea w = Ok {| columns := columns d; rows := [] |}.
Proof.
  intros Hd Hm Hnone Huniq. rewrite run_filtrar_spec, Hd. simpl.
  destruct (has_column "estrato_qualis" d) eqn:Hcol.
  - rewrite (filtrar_valor_com_estrato d area subarea mask Hcol Hm).
    pose proof (has_column_positions "estrato_qualis" d Hcol) as Hne.
    destruct (positions "estrato_qualis" (columns d) 0) as [|i [|j l]];
      [done| |simpl in Huniq; lia].
    rewrite (select_rows_none mask (rows d) Hnone). simpl.
    by rewrite take_rows_nil.
  - rewrite (filtrar_valor_sem_estrato d area subarea mask Hcol Hm).
    by rewrite (select_rows_none mask (rows d) Hnone).
Qed.

End FiltroCasamento.

(** ** The filter on the example catalog *)

Definition filtrado_engenharia : DataFrame :=
  {| columns := ["area"; "estrato_qualis"; "escopo"]%string;
     rows := [ {| label := 4; cells := [VStr "ENGENHARIA"; VStr "A2"; NaN] |};
               {| label := 1; cells := [VStr "Engenharia"; VStr "A2"; VStr "solo"] |};
               {| label := 0; cells := [VStr "Engenharia"; VStr "B1"; VStr "agua"] |};
               {| label := 3; cells := [VStr "engenharia civil"; NaN; VStr "agua"] |} ] |}.

Definition catalogo_sem_area : DataFrame :=
  {| columns := ["nome"; "estrato_qualis"]%string;
     rows := [ {| label := 0; cells := [VStr "Revista A"; VStr "A1"] |} ] |}.

Definition env_sem_area : Env :=
  env_exemplo (Ok catalogo_sem_area) (RequestFails (RequestException "offline")).

Lemma filtro_linhas_do_catalogo_witness :
  columns filtrado_agua = columns catalogo_normalizado /\
  length (rows filtrado_agua) <= length (rows catalogo_normalizado) /\
  forall r, r ∈ rows filtrado_agua ->
    exists r0,
      r0 ∈ rows catalogo_normalizado /\ label r = label r0 /\
      forall j,
        cell_at j r
        = match columns catalogo_normalizado !! j with
          | Some c =>
              if String.eqb c "estrato_qualis"
              then to_category ordem_qualis (cell_at j r0)
              else cell_at j r0
          | None => cell_at j r0
          end.
Proof.
  exact (filtro_linhas_do_catalogo (RT := runtime_exemplo) env_catalogo
           "Engenharia" (Some "agua"%string) mundo_inicial catalogo_normalizado
           filtrado_agua eq_refl eq_refl).
Defined.

Lemma filtro_estrato_canonico_witness :
  cell_at 1 {| label := 3; cells := [VStr "engenharia civil"; NaN; VStr "agua"] |}
  = NaN \/
  exists s,
    cell_at 1 {| label := 3; cells := [VStr "engenharia civil"; NaN; VStr "agua"] |}
    = VStr s /\ s ∈ ordem_qualis.
Proof.
  refine (filtro_estrato_canonico (RT := runtime_exemplo) env_catalogo
            "Engenharia" (Some "agua"%string) mundo_inicial catalogo_normalizado
            filtrado_agua _ 1 eq_refl eq_refl _ eq_refl).
  simpl. apply elem_of_cons. right. apply elem_of_cons. by left.
Defined.

Lemma subarea_sem_efeito_witness :
  filtrar_revistas (RT := runtime_exemplo) env_catalogo "Engenharia"
    (Some ""%string) mundo_inicial
  = filtrar_revistas (RT := runtime_exemplo) env_catalogo "Engenharia" None
      mundo_inicial.
Proof.
  exact (subarea_sem_efeito (RT := runtime_exemplo) env_catalogo "Engenharia" ""
           mundo_inicial catalogo_normalizado eq_refl (or_introl eq_refl)).
Defined.

Lemma filtro_sem_coluna_area_witness :
  filtrar_revistas (RT := runtime_exemplo) env_sem_area "Engenharia" None
    mundo_inicial
  = (Raise (KeyError "area"),
     com_catalogo mundo_inicial (Some catalogo_sem_area)
       (heap mundo_inicial ++ [catalogo_sem_area])).
Proof.
  exact (filtro_sem_coluna_area (RT := runtime_exemplo) env_sem_area
           "Engenharia" None mundo_inicial catalogo_sem_area eq_refl eq_refl).
Defined.

Lemma filtro_padrao_invalido_witness :
  run_filtrar (RT := runtime_exemplo) env_catalogo "C++ (" None mundo_inicial
  = Raise (ReError "C++ (").
Proof.
  exact (filtro_padrao_invalido (RT := runtime_exemplo) env_catalogo "C++ ("
           None mundo_inicial catalogo_normalizado 0 eq_refl eq_refl eq_refl
           eq_refl).
Defined.

Lemma filtro_casa_area_witness :
  exists i found,
    positions "area" (columns catalogo_normalizado) 0 = [i] /\
    re_compile_ci (Runtime := runtime_exemplo) "Engenharia" = Some found /\
    (forall r, r ∈ rows filtrado_engenharia ->
       exists s, cell_at i r = VStr s /\ found s = true) /\
    (truthy_opt None = false ->
     forall r0 s, r0 ∈ rows catalogo_normalizado ->
       cell_at i r0 = VStr s -> found s = true ->
       (if has_column "estrato_qualis" catalogo_normalizado
        then astype_row "estrato_qualis" ordem_qualis
               (columns catalogo_normalizado) r0
        else r0) ∈ rows filtrado_engenharia).
Proof.
  exact (filtro_casa_area (RT := runtime_exemplo) env_catalogo "Engenharia"
           None mundo_inicial catalogo_normalizado filtrado_engenharia
           eq_refl eq_refl).
Defined.

Lemma filtro_sem_resultados_witness :
  run_filtrar (RT := runtime_exemplo) env_catalogo "Medicina" None mundo_inicial
  = Ok {| columns := columns catalogo_normalizado; rows := [] |}.
Proof.
  refine (filtro_sem_resultados (RT := runtime_exemplo) env_catalogo "Medicina"
            None mundo_inicial catalogo_normalizado
            [false; false; false; false; false] eq_refl eq_refl _ (le_n 1)).
  repeat constructor.
Defined.

(** ** What the search returns and leaves behind *)

(** An item the loop of lines 82-104 gets through: an object whose title,
    when it has one, has a first element. *)
Definition item_bem_formado (v : value) : bool :=
  match v with
  | VDict it =>
      match lookup_key "title" it with
      | None => true
      | Some t =>
          match getitem_0 t with
          | Ok _ => true
          | Raise _ => false
          end
      end
  | _ => false
  end.

Section Busca.
Context `{RT : Runtime} (env : Env).

(** The world after the request of a search has been logged. *)
Definition apos_pedido (w : World) (query : string) (n : Z) : World :=
  {| cache := cache w; heap := heap w; requests := requests w ++ [(query, n)];
     avisos := avisos w; chats := chats w |}.

(** The same world with the warning of the search shown. *)
Definition apos_aviso (w : World) (query : string) (n : Z) (e : exn) : World :=
  {| cache := cache w; heap := heap w; requests := requests w ++ [(query, n)];
     avisos := avisos w ++ [AvisoCrossref e]; chats := chats w |}.

(** The search as a function of what the endpoint answers. *)
Lemma buscar_artigos_crossref_spec (query : string) (n : Z) (w : World) :
  query <> ""%string ->
  buscar_artigos_crossref env query n w
  = match
      match http_get env query n with
      | RequestFails e => Raise e
      | Response status json =>
          rbind (raise_for_status status) (fun _ =>
          rbind json (fun body =>
          rbind (get body "message" (VDict [])) (fun message =>
          get message "items" (VList []))))
      end
    with
    | Raise e => (Ok [], apos_aviso w query n e)
    | Ok items =>
        (rbind (iterate items) normalizar_itens, apos_pedido w query n)
    end.
Proof.
  intros Hq. apply String.eqb_neq in Hq.
  unfold buscar_artigos_crossref. rewrite Hq.
  unfold bind, try_except, buscar_items, bind, requests_get, lift, st_warning,
    ret, apos_aviso, apos_pedido. simpl.
  destruct (http_get env query n) as [e|status body]; simpl; [reflexivity|].
  destruct (raise_for_status status); simpl; [|reflexivity].
  destruct body as [body|e]; simpl; [|reflexivity].
  destruct (get body "message" (VDict [])) as [message|e]; simpl;
    [|reflexivity].
  destruct (get message "items" (VList [])) as [items|e]; simpl;
    [|reflexivity].
  destruct (iterate items) as [its|e]; simpl; reflexivity.
Qed.

(** X10: an answer with a status from 400 to 599 is never read: whatever
    its body, the search returns the empty list, logs the request and shows
    one warning carrying the [HTTPError] of that status. *)
Theorem busca_status_de_erro (query : string) (n : Z) (w : World)
    (status : Z) (json : result value) :
  query <> ""%string ->
  http_get env query n = Response status json ->
  (400 <= status < 600)%Z ->
  buscar_artigos_crossref env query n w
  = (Ok [], apos_aviso w query n (HTTPError status)).
Proof.
  intros Hq Hresp Hst. rewrite (buscar_artigos_crossref_spec query n w Hq), Hresp.
  unfold raise_for_status.
  replace (400 <=? status)%Z with true by (symmetry; apply Z.leb_le; lia).
  replace (status <? 600)%Z with true by (symmetry; apply Z.ltb_lt; lia).
  reflexivity.
Qed.

(** X11: a JSON object without [message], or whose message is an object
    without [items], is not a failure: the search returns the empty list
    and shows no warning. *)
Theorem busca_sem_itens (query : string) (n : Z) (w : World) (status : Z)
    (body : dict) :
  query <> ""%string ->
  http_get env query n = Response status (Ok (VDict body)) ->
  (status < 400 \/ 600 <= status)%Z ->
  lookup_key "message" body = None \/
  (exists message, lookup_key "message" body = Some (VDict message) /\
                   lookup_key "items" message = None) ->
  buscar_artigos_crossref env query n w = (Ok [], apos_pedido w query n).
Proof.
  intros Hq Hresp Hst Hbody.
  rewrite (buscar_artigos_crossref_spec query n w Hq), Hresp.
  unfold raise_for_status.
  replace ((400 <=? status)%Z && (status <? 600)%Z)%bool with false.
  2:{ symmetry. apply andb_false_iff.
      destruct Hst; [left; apply Z.leb_gt; lia|right; apply Z.ltb_ge; lia]. }
  simpl. destruct Hbody as [Hm|(message & Hm & Hi)]; rewrite Hm; simpl.
  - reflexivity.
  - by rewrite Hi.
Qed.

Lemma normalizar_itens_Forall2 (its : list value) (arts : list artigo) :
  normalizar_itens its = Ok arts <->
  Forall2 (fun it a => normalizar_item it = Ok a) its arts.
Proof.
  revert arts. induction its as [|it its IH]; intros arts; simpl.
  - split; [intros [= <-]; constructor|intros H; by inversion H].
  - destruct (normalizar_item it) as [a|e] eqn:Ha; simpl.
    + destruct (normalizar_itens its) as [r|e] eqn:Hr; simpl.
      * split.
        -- intros [= <-]. constructor; [exact Ha|]. by apply IH.
        -- intros H. inversion H as [|? b ? bs Hb Hbs]; subst.
           apply IH in Hbs. congruence.
      * split; [discriminate|]. intros H.
        inversion H as [|? b ? bs Hb Hbs]; subst. apply IH in Hbs. discriminate.
    + split; [discriminate|]. intros H. inversion H; subst. congruence.
Qed.

(** X12: when the answer holds a list of items and the search returns,
    it returns one record per item, in the order of the answer, each the
    normal form of the item at its place; the request is logged and no
    warning is shown. *)
Theorem busca_preserva_ordem (query : string) (n : Z) (w w1 : World)
    (its : list value) (arts : list artigo) :
  query <> ""%string ->
  buscar_items env query n w = (Ok (VList its), w1) ->
  fst (buscar_artigos_crossref env query n w) = Ok arts ->
  Forall2 (fun it a => normalizar_item it = Ok a) its arts /\
  length arts = length its /\
  snd (buscar_artigos_crossref env query n w) = apos_pedido w query n.
Proof.
  intros Hq Hitems Hok. apply String.eqb_neq in Hq.
  unfold buscar_artigos_crossref in *. rewrite Hq in *.
  unfold bind, try_except in *. rewrite Hitems in *.
  unfold ret, lift in *. simpl in *.
  assert (Hw1 : w1 = apos_pedido w query n).
  { unfold buscar_items, bind, requests_get, lift in Hitems.
    destruct (http_get env query n) as [e|status body]; [discriminate|].
    simpl in Hitems.
    destruct (raise_for_status status); simpl in Hitems; [|discriminate].
    destruct body as [body|e]; simpl in Hitems; [|discriminate].
    destruct (get body "message" (VDict [])) as [message|e]; simpl in Hitems;
      [|discriminate].
    destruct (get message "items" (VList [])) as [items|e]; simpl in Hitems;
      by inversion Hitems. }
  destruct (normalizar_itens its) as [r|e] eqn:Hr; simpl in *; [|discriminate].
  inversion Hok; subst r.
  apply normalizar_itens_Forall2 in Hr.
  split; [exact Hr|]. split; [symmetry; by eapply Forall2_length|exact Hw1].
Qed.

(** When the search returns records, they are the empty list or the normal
    forms of a list of items. *)
Lemma busca_ok_inv (query : string) (n : Z) (w : World) (arts : list artigo) :
  fst (buscar_artigos_crossref env query n w) = Ok arts ->
  arts = [] \/ exists its, normalizar_itens its = Ok arts.
Proof.
  destruct (String.eqb query "") eqn:Hq.
  - unfold buscar_artigos_crossref. rewrite Hq. simpl. intros [= <-]. by left.
  - apply String.eqb_neq in Hq.
    rewrite (buscar_artigos_crossref_spec query n w Hq).
    match goal with
    | |- context [match ?r with Ok _ => _ | Raise _ => _ end] =>
        destruct r as [items|e]
    end; simpl; [|intros [= <-]; by left].
    destruct (iterate items) as [its|e]; simpl; [|discriminate].
    intros H. right. by exists its.
Qed.

(** X13: in every record the search returns, the link is there exactly
    when the DOI is truthy, and it is the DOI after [https://doi.org/]; so
    a record without DOI, or with an empty one, has no link, and the DOI can
    be read back from the link. *)
Theorem busca_link_do_doi (query : string) (n : Z) (w : World)
    (arts : list artigo) (a : artigo) :
  fst (buscar_artigos_crossref env query n w) = Ok arts ->
  a ∈ arts ->
  link a = (if truthy (doi a)
            then Some ("https://doi.org/" +:+ py_str (doi a)) else None) /\
  (forall s, doi a = VStr s -> s <> ""%string ->
             link a = Some ("https://doi.org/" +:+ s)) /\
  (doi a = VNone -> link a = None).
Proof.
  intros Hok Ha.
  assert (Hlink : link a = if truthy (doi a)
                           then Some ("https://doi.org/" +:+ py_str (doi a))
                           else None).
  { destruct (busca_ok_inv query n w arts Hok) as [->|(its & Hits)];
      [by apply elem_of_nil in Ha|].
    apply normalizar_itens_Forall2 in Hits.
    apply list_elem_of_lookup_1 in Ha as (k & Hk).
    destruct (Forall2_lookup_r _ _ _ _ _ Hits Hk) as (it & _ & Hit).
    unfold normalizar_item in Hit.
    destruct (get it "title" _) as [t|]; simpl in Hit; [|discriminate].
    destruct (getitem_0 t) as [ti|]; simpl in Hit; [|discriminate].
    destruct (get it "DOI" VNone) as [d|]; simpl in Hit; [|discriminate].
    by inversion Hit. }
  split; [exact Hlink|]. split.
  - intros s Hs Hne. rewrite Hlink, Hs. simpl.
    apply String.eqb_neq in Hne. by rewrite Hne.
  - intros Hd. by rewrite Hlink, Hd.
Qed.

(** The search leaves the cache, the heap and the messages sent alone. *)
Lemma busca_preserva (query : string) (n : Z) (w : World) :
  let w' := snd (buscar_artigos_crossref env query n w) in
  cache w' = cache w /\ heap w' = heap w /\ chats w' = chats w.
Proof.
  destruct (String.eqb query "") eqn:Hq.
  - unfold buscar_artigos_crossref. rewrite Hq. simpl. by repeat split.
  - apply String.eqb_neq in Hq.
    rewrite (buscar_artigos_crossref_spec query n w Hq).
    match goal with
    | |- context [match ?r with Ok _ => _ | Raise _ => _ end] =>
        destruct r as [items|e]
    end; simpl; by repeat split.
Qed.

(** It shows no warning, or one together with the empty list. *)
Lemma busca_avisos (query : string) (n : Z) (w : World) :
  let r := fst (buscar_artigos_crossref env query n w) in
  let w' := snd (buscar_artigos_crossref env query n w) in
  avisos w' = avisos w \/
  exists e, avisos w' = avisos w ++ [AvisoCrossref e] /\ r = Ok [].
Proof.
  destruct (String.eqb query "") eqn:Hq.
  - unfold buscar_artigos_crossref. rewrite Hq. simpl. by left.
  - apply String.eqb_neq in Hq.
    rewrite (buscar_artigos_crossref_spec query n w Hq).
    match goal with
    | |- context [match ?r with Ok _ => _ | Raise _ => _ end] =>
        destruct r as [items|e]
    end; simpl; [by left|]. right. by exists e.
Qed.

(** X14: the search touches neither the cached catalog, nor the pandas
    objects, nor the messages sent to the text-generation service; it shows
    at most one warning, and when it shows one it returns the empty list:
    an exception that leaves the search is never announced. *)
Theorem busca_so_registra (query : string) (n : Z) (w : World) :
  let r := fst (buscar_artigos_crossref env query n w) in
  let w' := snd (buscar_artigos_crossref env query n w) in
  cache w' = cache w /\ heap w' = heap w /\ chats w' = chats w /\
  (avisos w' = avisos w \/
   exists e, avisos w' = avisos w ++ [AvisoCrossref e] /\ r = Ok []).
Proof.
  intros r w'. subst r w'.
  destruct (busca_preserva query n w) as (Hc & Hh & Hch).
  repeat split; try assumption. apply busca_avisos.
Qed.

Lemma normalizar_item_ok (v : value) :
  (exists a, normalizar_item v = Ok a) <-> item_bem_formado v = true.
Proof.
  unfold normalizar_item, item_bem_formado.
  destruct v as [| | | | |l|it]; simpl;
    try (split; [intros [a H]; discriminate|discriminate]).
  destruct (lookup_key "title" it) as [t|]; simpl.
  - destruct (getitem_0 t) as [x|e]; simpl.
    + split; [reflexivity|]. intros _.
      destruct (lookup_key "DOI" it); simpl; by eexists.
    + split; [intros [a H]; discriminate|discriminate].
  - split; [reflexivity|]. intros _.
    destruct (lookup_key "DOI" it); simpl; by eexists.
Qed.

(** X15: the loop over the items gets through exactly when every item is
    an object whose title, when it has one, has a first element; any other
    item (a number, a string, a list, a title that is the empty list or
    null) makes it raise. *)
Theorem normalizar_itens_ok (its : list value) :
  (exists arts, normalizar_itens its = Ok arts) <->
  forallb item_bem_formado its = true.
Proof.
  induction its as [|it its IH]; simpl.
  - split; [reflexivity|]. intros _. by eexists.
  - rewrite andb_true_iff, <- IH, <- normalizar_item_ok. split.
    + intros [arts H].
      destruct (normalizar_item it) as [a|e]; simpl in H; [|discriminate].
      destruct (normalizar_itens its) as [r|e]; simpl in H; [|discriminate].
      split; by eexists.
    + intros [[a Ha] [r Hr]]. rewrite Ha, Hr. simpl. by eexists.
Qed.

End Busca.

(** ** The search on example answers *)

Definition tres_itens : list value :=
  [ VDict [("title"%string, VList [VStr "a"]);
           ("DOI"%string, VStr "10.1/a");
           ("published-print"%string,
            VDict [("date-parts"%string, VList [VList [VInt 2021; VInt 3]])])];
    VDict [("title"%string, VList [VStr "b"]); ("DOI"%string, VStr "")];
    VDict [("published-online"%string,
            VDict [("date-parts"%string, VList [VList [VInt 2018]])])] ].

Definition tres_artigos : list artigo :=
  [ {| titulo := VStr "a"; ano := VInt 2021; doi := VStr "10.1/a";
       link := Some "https://doi.org/10.1/a"%string |};
    {| titulo := VStr "b"; ano := VNone; doi := VStr ""; link := None |};
    {| titulo := VStr "Sem título"; ano := VInt 2018; doi := VNone;
       link := None |} ].

Definition env_tres_itens : Env :=
  env_exemplo (Ok catalogo_exemplo) (Response 200 (Ok (corpo (VList tres_itens)))).

Definition env_indisponivel : Env :=
  env_exemplo (Ok catalogo_exemplo)
    (Response 503 (Ok (corpo (VList tres_itens)))).

Definition env_sem_message : Env :=
  env_exemplo (Ok catalogo_exemplo)
    (Response 200 (Ok (VDict [("status"%string, VStr "ok")]))).

Lemma busca_status_de_erro_witness :
  buscar_artigos_crossref (RT := runtime_exemplo) env_indisponivel "agua" 5
    mundo_inicial
  = (Ok [], apos_aviso mundo_inicial "agua" 5 (HTTPError 503)).
Proof.
  refine (busca_status_de_erro (RT := runtime_exemplo) env_indisponivel "agua" 5
            mundo_inicial 503 _ _ eq_refl _); [discriminate|lia].
Defined.

Lemma busca_sem_itens_witness :
  buscar_artigos_crossref (RT := runtime_exemplo) env_sem_message "agua" 5
    mundo_inicial
  = (Ok [], apos_pedido mundo_inicial "agua" 5).
Proof.
  refine (busca_sem_itens (RT := runtime_exemplo) env_sem_message "agua" 5
            mundo_inicial 200 _ _ eq_refl _ (or_introl eq_refl));
    [discriminate|lia].
Defined.

Lemma busca_preserva_ordem_witness :
  Forall2 (fun it a => normalizar_item (RT := runtime_exemplo) it = Ok a)
    tres_itens tres_artigos /\
  length tres_artigos = length tres_itens /\
  snd (buscar_artigos_crossref (RT := runtime_exemplo) env_tres_itens "agua" 5
         mundo_inicial)
  = apos_pedido mundo_inicial "agua" 5.
Proof.
  refine (busca_preserva_ordem (RT := runtime_exemplo) env_tres_itens "agua" 5
            mundo_inicial _ tres_itens tres_artigos _ eq_refl eq_refl).
  discriminate.
Defined.

Lemma busca_link_do_doi_witness :
  let a := {| titulo := VStr "a"; ano := VInt 2021; doi := VStr "10.1/a";
              link := Some "https://doi.org/10.1/a"%string |} in
  link a = (if truthy (doi a)
            then Some ("https://doi.org/" +:+
                       py_str (RT := runtime_exemplo) (doi a))
            else None) /\
  (forall s, doi a = VStr s -> s <> ""%string ->
             link a = Some ("https://doi.org/" +:+ s)) /\
  (doi a = VNone -> link a = None).
Proof.
  refine (busca_link_do_doi (RT := runtime_exemplo) env_tres_itens "agua" 5
            mundo_inicial tres_artigos _ eq_refl _).
  apply elem_of_cons. by left.
Defined.

(** ** The lines of the context *)

(** A text on one line. *)
Definition sem_quebra (s : string) : Prop :=
  Textwrap.newline ∉ list_ascii_of_string s.

Section Contexto.
Context `{RT : Runtime}.
Import Textwrap.

Lemma sem_quebra_forallb (l : list ascii) :
  forallb (fun c => negb (Ascii.eqb c newline)) l = true -> newline ∉ l.
Proof.
  induction l as [|c l IH]; simpl; [intros _; apply not_elem_of_nil|].
  intros H. apply andb_prop in H as [Hc Hl]. apply not_elem_of_cons. split.
  - intros <-. by rewrite Ascii.eqb_refl in Hc.
  - by apply IH.
Qed.

Lemma split_lines_single (l : list ascii) :
  newline ∉ l -> split_lines l = [l].
Proof.
  induction l as [|c l IH]; [reflexivity|]. intros Hnl.
  apply not_elem_of_cons in Hnl as [Hc Hl]. simpl.
  destruct (Ascii.eqb c newline) eqn:Heq.
  - apply Ascii.eqb_eq in Heq. congruence.
  - by rewrite (IH Hl).
Qed.

(** A line between two newlines keeps, when the text is dedented, what
    follows its leading blanks. *)
Lemma linha_no_dedent (before after rotulo valor : string) (ws : list ascii)
    (c : ascii) (rest : list ascii) :
  list_ascii_of_string rotulo = ws ++ c :: rest ->
  is_blank c = false ->
  sem_quebra rotulo ->
  sem_quebra valor ->
  contains
    (dedent (before +:+ String newline (rotulo +:+ valor) +:+
             String newline after))
    (string_of_list_ascii (c :: rest) +:+ valor).
Proof.
  intros Hrot Hc Hr Hv. unfold dedent.
  rewrite list_ascii_of_string_app.
  change (list_ascii_of_string
            (String newline (rotulo +:+ valor) +:+ String newline after))
    with (newline :: list_ascii_of_string
                       ((rotulo +:+ valor) +:+ String newline after)).
  rewrite !list_ascii_of_string_app.
  change (list_ascii_of_string (String newline after))
    with (newline :: list_ascii_of_string after).
  set (line := list_ascii_of_string rotulo ++ list_ascii_of_string valor).
  destruct (dedent_chars_keeps
              (list_ascii_of_string before ++
               newline :: line ++ newline :: list_ascii_of_string after)
              ws c (rest ++ list_ascii_of_string valor))
    as (pre & post & Hd).
  - rewrite !split_lines_app. apply elem_of_app. right.
    apply elem_of_app. left. rewrite split_lines_single.
    + subst line. rewrite Hrot, <- app_assoc. by left.
    + subst line. apply not_elem_of_app. by split.
  - exact Hc.
  - rewrite Hd. exists (string_of_list_ascii pre), (string_of_list_ascii post).
    rewrite !string_of_list_ascii_app.
    change (c :: rest ++ list_ascii_of_string valor)
      with ((c :: rest) ++ list_ascii_of_string valor).
    by rewrite string_of_list_ascii_app, string_of_list_ascii_of_string.
Qed.

Lemma prompt_intro_linhas :
  prompt_intro
  = string_of_list_ascii (take 181 (list_ascii_of_string prompt_intro)) +:+
    String newline "    - Área principal do artigo: ".
Proof. reflexivity. Qed.

Lemma contains_or_default (s : option string) (default : string) :
  truthy_opt s = false -> or_default s default = default.
Proof.
  destruct s as [s|]; simpl; [|reflexivity].
  by destruct (String.eqb s "").
Qed.

(** X16: the user message shows what the student gave, each on its line
    after its label: the area, the sub-topic and the keywords, whenever the
    text is on one line; for a sub-topic or keywords that are absent or
    empty the line reads "não informado". *)
Theorem contexto_do_aluno (area : string) (subarea : option string)
    (revistas : DataFrame) (artigos : list artigo)
    (palavras_chave : option string) :
  exists user,
    montar_mensagens area subarea revistas artigos palavras_chave
    = [ {| role := "system"; content := system_content |};
        {| role := "user"; content := user |} ] /\
    (sem_quebra area ->
     contains user ("- Área principal do artigo: " +:+ area)) /\
    (sem_quebra (or_default subarea "não informado") ->
     contains user ("- Subárea / tema específico: " +:+
                    or_default subarea "não informado")) /\
    (sem_quebra (or_default palavras_chave "não informado") ->
     contains user ("- Palavras-chave fornecidas pelo aluno: " +:+
                    or_default palavras_chave "não informado")) /\
    (truthy_opt subarea = false ->
     contains user "- Subárea / tema específico: não informado") /\
    (truthy_opt palavras_chave = false ->
     contains user "- Palavras-chave fornecidas pelo aluno: não informado").
Proof.
  unfold montar_mensagens. eexists. split; [reflexivity|].
  set (sub := or_default subarea "não informado").
  set (kw := or_default palavras_chave "não informado").
  set (recs := py_repr (VList (to_records revistas))).
  set (arts := py_repr (VList (map dict_of_artigo artigos))).
  assert (Harea : sem_quebra area ->
            contains (dedent (user_prompt area subarea palavras_chave
                                (to_records revistas) artigos))
              ("- Área principal do artigo: " +:+ area)).
  { intros Hnl. unfold user_prompt. fold sub kw recs arts.
    rewrite prompt_intro_linhas, append_assoc.
    apply (linha_no_dedent _
             ("    - Subárea / tema específico: " +:+ sub +:+ prompt_palavras +:+
              kw +:+ prompt_revistas +:+ recs +:+ prompt_artigos +:+ arts +:+
              prompt_tarefa)
             "    - Área principal do artigo: " area
             (list_ascii_of_string "    ") "-"
             (list_ascii_of_string " Área principal do artigo: "));
      [reflexivity|reflexivity|by apply sem_quebra_forallb|exact Hnl]. }
  assert (Hsub : sem_quebra sub ->
            contains (dedent (user_prompt area subarea palavras_chave
                                (to_records revistas) artigos))
              ("- Subárea / tema específico: " +:+ sub)).
  { intros Hnl. unfold user_prompt. fold sub kw recs arts.
    rewrite <- (append_assoc prompt_intro area).
    apply (linha_no_dedent (prompt_intro +:+ area)
             ("    - Palavras-chave fornecidas pelo aluno: " +:+ kw +:+
              prompt_revistas +:+ recs +:+ prompt_artigos +:+ arts +:+
              prompt_tarefa)
             "    - Subárea / tema específico: " sub
             (list_ascii_of_string "    ") "-"
             (list_ascii_of_string " Subárea / tema específico: "));
      [reflexivity|reflexivity|by apply sem_quebra_forallb|exact Hnl]. }
  assert (Hkw : sem_quebra kw ->
            contains (dedent (user_prompt area subarea palavras_chave
                                (to_records revistas) artigos))
              ("- Palavras-chave fornecidas pelo aluno: " +:+ kw)).
  { intros Hnl. unfold user_prompt. fold sub kw recs arts.
    rewrite <- (append_assoc prompt_subarea sub).
    rewrite <- (append_assoc area).
    rewrite <- (append_assoc prompt_intro).
    apply (linha_no_dedent (prompt_intro +:+ area +:+ prompt_subarea +:+ sub)
             (String newline "    Revistas disponíveis (dados da base interna):" +:+
              String newline "    " +:+ recs +:+ prompt_artigos +:+ arts +:+
              prompt_tarefa)
             "    - Palavras-chave fornecidas pelo aluno: " kw
             (list_ascii_of_string "    ") "-"
             (list_ascii_of_string " Palavras-chave fornecidas pelo aluno: "));
      [reflexivity|reflexivity|by apply sem_quebra_forallb|exact Hnl]. }
  split; [exact Harea|]. split; [exact Hsub|]. split; [exact Hkw|]. split.
  - intros Hf. specialize (Hsub). subst sub.
    rewrite (contains_or_default subarea _ Hf) in Hsub.
    apply Hsub. by apply sem_quebra_forallb.
  - intros Hf. subst kw.
    rewrite (contains_or_default palavras_chave _ Hf) in Hkw.
    apply Hkw. by apply sem_quebra_forallb.
Qed.

(** X17: the whole task text reaches the service: of every line of the
    text after [{artigos}], what stands from any non-blank character to the
    end of the line is in the user message, whatever the inputs. *)
Theorem tarefa_inteira_no_contexto (area : string) (subarea : option string)
    (revistas : DataFrame) (artigos : list artigo)
    (palavras_chave : option string) :
  exists user,
    montar_mensagens area subarea revistas artigos palavras_chave
    = [ {| role := "system"; content := system_content |};
        {| role := "user"; content := user |} ] /\
    forall ws c rest,
      (ws ++ c :: rest) ∈ split_lines (list_ascii_of_string corpo_tarefa) ->
      is_blank c = false ->
      contains user (string_of_list_ascii (c :: rest)).
Proof.
  unfold montar_mensagens. eexists. split; [reflexivity|].
  intros ws c rest Hin Hc.
  destruct (user_prompt_tarefa area subarea palavras_chave
              (to_records revistas) artigos) as (before & ->).
  apply list_elem_of_lookup_1 in Hin as (k & Hk).
  apply (tarefa_no_prompt before _ k ws c rest); [|exact Hc|exact Hk].
  by rewrite list_ascii_of_string_of_list_ascii.
Qed.

End Contexto.

Lemma contexto_do_aluno_witness :
  exists user,
    montar_mensagens (RT := runtime_exemplo) "Engenharia" None
      catalogo_normalizado [] (Some "agua potável"%string)
    = [ {| role := "system"; content := system_content |};
        {| role := "user"; content := user |} ] /\
    contains user "- Área principal do artigo: Engenharia" /\
    contains user "- Subárea / tema específico: não informado" /\
    contains user "- Palavras-chave fornecidas pelo aluno: agua potável".
Proof.
  destruct (contexto_do_aluno (RT := runtime_exemplo) "Engenharia" None
              catalogo_normalizado [] (Some "agua potável"%string))
    as (user & Hm & Harea & _ & Hkw & Hsub & _).
  exists user. split; [exact Hm|]. split; [|split].
  - apply Harea. by apply sem_quebra_forallb.
  - by apply Hsub.
  - apply Hkw. by apply sem_quebra_forallb.
Defined.

Lemma tarefa_inteira_no_contexto_witness :
  exists user,
    montar_mensagens (RT := runtime_exemplo) "Engenharia" None
      catalogo_normalizado [] None
    = [ {| role := "system"; content := system_content |};
        {| role := "user"; content := user |} ] /\
    contains user "7. Sugestão de organização do artigo do aluno".
Proof.
  destruct (tarefa_inteira_no_contexto (RT := runtime_exemplo) "Engenharia" None
              catalogo_normalizado [] None) as (user & Hm & Hlinhas).
  exists user. split; [exact Hm|].
  apply (Hlinhas (list_ascii_of_string "    ") "7"%char
           (list_ascii_of_string ". Sugestão de organização do artigo do aluno"));
    [|reflexivity].
  apply (list_elem_of_lookup_2 _ 38). reflexivity.
Defined.

(** ** The three steps of the pipeline together *)

(** The world after the warning of an empty result, when there is one. *)
Definition passo_aviso (revistas : DataFrame) (w : World) : World :=
  if frame_empty revistas then snd (st_warning AvisoSemRevistas w) else w.

Section Pipeline.
Context `{RT : Runtime} (env : Env).

(** The query of the search: the three texts with a space between them. *)
Definition consulta (area subarea palavras_chave : string) : string :=
  area +:+ " " +:+ subarea +:+ " " +:+ palavras_chave.

(** The second step: the search, only for keywords that are not blank. *)
Definition passo_busca (area subarea palavras_chave : string) (n : Z)
    (w : World) : result (list artigo) * World :=
  if negb (String.eqb (str_strip palavras_chave) "") then
    buscar_artigos_crossref env (consulta area subarea palavras_chave) n w
  else (Ok [], w).

Lemma or_default_vazio (s : string) : or_default (Some s) "" = s.
Proof.
  simpl. destruct (String.eqb s "") eqn:H; [|reflexivity].
  apply String.eqb_eq in H. by subst.
Qed.

Lemma consulta_nao_vazia (area subarea palavras_chave : string) :
  consulta area subarea palavras_chave <> ""%string.
Proof. unfold consulta. by destruct area. Qed.

Lemma pipeline_spec (area subarea palavras_chave : string) (n : Z) (w : World) :
  pipeline env area subarea palavras_chave n w
  = match filtrar_revistas env area (Some subarea) w with
    | (Raise e, w1) => (Raise e, w1)
    | (Ok l, w1) =>
        match passo_busca area subarea palavras_chave n
                (passo_aviso (deref l w1) w1) with
        | (Raise e, w3) => (Raise e, w3)
        | (Ok artigos, w3) =>
            match gerar_relatorio_ia env area (Some subarea) l artigos
                    (Some palavras_chave) w3 with
            | (Ok relatorio, w4) => (Ok (l, artigos, relatorio), w4)
            | (Raise e, w4) => (Raise e, w4)
            end
        end
    end.
Proof.
  unfold pipeline. rewrite or_default_vazio.
  fold (consulta area subarea palavras_chave).
  unfold bind at 1.
  destruct (filtrar_revistas env area (Some subarea) w) as [[l|e] w1];
    [|reflexivity].
  unfold bind at 1, read at 1. unfold bind at 1.
  assert (Haviso :
    (if frame_empty (deref l w1) then st_warning AvisoSemRevistas else ret tt) w1
    = (Ok tt, passo_aviso (deref l w1) w1)).
  { unfold passo_aviso. by destruct (frame_empty (deref l w1)). }
  rewrite Haviso. unfold bind at 1.
  assert (Hbusca :
    (if negb (String.eqb (str_strip palavras_chave) "")
     then buscar_artigos_crossref env (consulta area subarea palavras_chave) n
     else ret []) (passo_aviso (deref l w1) w1)
    = passo_busca area subarea palavras_chave n (passo_aviso (deref l w1) w1)).
  { unfold passo_busca. by destruct (negb _). }
  rewrite Hbusca.
  destruct (passo_busca area subarea palavras_chave n _) as [[artigos|e] w3];
    [|reflexivity].
  unfold bind at 1. rewrite gerar_relatorio_ia_spec.
  by destruct (chat_create env _).
Qed.

(** What the filter leaves of the world: the logs as they were, the heap
    longer. *)
Lemma filtrar_revistas_mundo (area : string) (subarea : option string)
    (w : World) :
  let w1 := snd (filtrar_revistas env area subarea w) in
  requests w1 = requests w /\ avisos w1 = avisos w /\ chats w1 = chats w /\
  exists objs, heap w1 = heap w ++ objs.
Proof.
  rewrite filtrar_revistas_spec.
  destruct (catalogo env w) as [d|e]; simpl.
  - destruct (mascara d area subarea) as [mask|e]; simpl;
      [|repeat split; by eexists].
    destruct (has_column _ _);
      [destruct (sort_values _ _ _)|]; simpl; repeat split; by eexists.
  - repeat split. exists []. by rewrite app_nil_r.
Qed.

Lemma passo_aviso_mundo (r : DataFrame) (w : World) :
  cache (passo_aviso r w) = cache w /\ heap (passo_aviso r w) = heap w /\
  requests (passo_aviso r w) = requests w /\
  chats (passo_aviso r w) = chats w /\
  avisos (passo_aviso r w)
  = avisos w ++ (if frame_empty r then [AvisoSemRevistas] else []).
Proof.
  unfold passo_aviso. destruct (frame_empty r); simpl; repeat split.
  by rewrite app_nil_r.
Qed.

(** X18: with keywords that are blank after [strip] the pipeline asks the
    search endpoint nothing, and the articles it returns and sends on are
    the empty list. *)
Theorem pipeline_sem_palavras_chave (area subarea palavras_chave : string)
    (n : Z) (w : World) :
  str_strip palavras_chave = ""%string ->
  let r := pipeline env area subarea palavras_chave n w in
  requests (snd r) = requests w /\
  forall l artigos relatorio,
    fst r = Ok (l, artigos, relatorio) -> artigos = [].
Proof.
  intros Hkw r. subst r. rewrite pipeline_spec.
  destruct (filtrar_revistas_mundo area (Some subarea) w) as (Hreq & _ & _ & _).
  destruct (filtrar_revistas env area (Some subarea) w) as [[l|e] w1];
    simpl in Hreq; [|split; [exact Hreq|discriminate]].
  unfold passo_busca. rewrite Hkw.
  change (negb (String.eqb "" "")) with false. cbv iota.
  destruct (passo_aviso_mundo (deref l w1) w1) as (_ & _ & Hreq2 & _ & _).
  rewrite gerar_relatorio_ia_spec.
  destruct (chat_create env _); simpl; (split; [congruence|]).
  - by intros ? ? ? [= _ <- _].
  - discriminate.
Qed.

(** X19: when the filter returns and the keywords are not blank, the
    pipeline makes exactly one request, for the area, the sub-topic and the
    keywords joined by single spaces, with the row count asked for. *)
Theorem pipeline_uma_consulta (area subarea palavras_chave : string) (n : Z)
    (w : World) (l : loc) :
  str_strip palavras_chave <> ""%string ->
  fst (filtrar_revistas env area (Some subarea) w) = Ok l ->
  requests (snd (pipeline env area subarea palavras_chave n w))
  = requests w ++ [(area +:+ " " +:+ subarea +:+ " " +:+ palavras_chave, n)].
Proof.
  intros Hkw Hl. rewrite pipeline_spec.
  destruct (filtrar_revistas_mundo area (Some subarea) w) as (Hreq & _ & _ & _).
  destruct (filtrar_revistas env area (Some subarea) w) as [[l'|e] w1];
    simpl in Hl, Hreq; [|discriminate].
  unfold passo_busca. apply String.eqb_neq in Hkw. rewrite Hkw.
  change (negb false) with true. cbv iota.
  destruct (passo_aviso_mundo (deref l' w1) w1) as (_ & _ & Hreq2 & _ & _).
  pose proof (requests_buscar_artigos_crossref env
                (consulta area subarea palavras_chave) n
                (passo_aviso (deref l' w1) w1)
                (consulta_nao_vazia area subarea palavras_chave)) as Hb.
  destruct (buscar_artigos_crossref env _ n _) as [[artigos|e] w3];
    simpl in Hb.
  - rewrite gerar_relatorio_ia_spec.
    destruct (chat_create env _); simpl; rewrite Hb; unfold consulta; congruence.
  - simpl. rewrite Hb. unfold consulta. congruence.
Qed.

End Pipeline.

Section PipelineFim.
Context `{RT : Runtime} (env : Env).

Lemma passo_busca_mundo (area subarea palavras_chave : string) (n : Z)
    (w : World) :
  let r := fst (passo_busca env area subarea palavras_chave n w) in
  let w' := snd (passo_busca env area subarea palavras_chave n w) in
  cache w' = cache w /\ heap w' = heap w /\ chats w' = chats w /\
  (avisos w' = avisos w \/
   exists e, avisos w' = avisos w ++ [AvisoCrossref e] /\ r = Ok []) /\
  (requests w' = requests w \/
   requests w' = requests w ++ [(consulta area subarea palavras_chave, n)]).
Proof.
  unfold passo_busca. destruct (negb _).
  - destruct (busca_preserva env (consulta area subarea palavras_chave) n w)
      as (Hc & Hh & Hch).
    pose proof (busca_avisos env (consulta area subarea palavras_chave) n w)
      as Hav.
    repeat split; try done. right.
    apply requests_buscar_artigos_crossref, consulta_nao_vazia.
  - simpl. repeat split; by left.
Qed.

Lemma deref_heap (l : loc) (w w' : World) :
  heap w' = heap w -> deref l w' = deref l w.
Proof. unfold deref. by intros ->. Qed.

(** X20: a request that fails does not stop the pipeline: when the filter
    has returned and the request for non-blank keywords raises, the
    text-generation service is still called, once, with the journals found
    and no articles; its answer, or its exception, is the outcome, and the
    warning of the search is shown after the one for an empty result. *)
Theorem pipeline_busca_falha (area subarea palavras_chave : string) (n : Z)
    (w : World) (l : loc) (e : exn) :
  str_strip palavras_chave <> ""%string ->
  fst (filtrar_revistas env area (Some subarea) w) = Ok l ->
  http_get env (consulta area subarea palavras_chave) n = RequestFails e ->
  let r := pipeline env area subarea palavras_chave n w in
  let revistas := deref l (snd (filtrar_revistas env area (Some subarea) w)) in
  let payload :=
    montar_mensagens area (Some subarea) revistas [] (Some palavras_chave) in
  fst r = match chat_create env payload with
          | Ok relatorio => Ok (l, [], relatorio)
          | Raise e' => Raise e'
          end /\
  chats (snd r) = chats w ++ [payload] /\
  avisos (snd r)
  = avisos w ++ (if frame_empty revistas then [AvisoSemRevistas] else []) ++
    [AvisoCrossref e].
Proof.
  intros Hkw Hl Hget r revistas payload. subst r revistas payload.
  rewrite pipeline_spec.
  destruct (filtrar_revistas_mundo env area (Some subarea) w)
    as (_ & Hav & Hch & _).
  destruct (filtrar_revistas env area (Some subarea) w) as [[l'|e'] w1];
    simpl in Hl, Hav, Hch; [|discriminate].
  inversion Hl; subst l'. cbn [snd].
  unfold passo_busca. apply String.eqb_neq in Hkw. rewrite Hkw.
  change (negb false) with true. cbv iota.
  rewrite (buscar_artigos_crossref_spec env _ n _
             (consulta_nao_vazia area subarea palavras_chave)), Hget.
  destruct (passo_aviso_mundo (deref l w1) w1) as (_ & Hh2 & _ & Hch2 & Hav2).
  rewrite gerar_relatorio_ia_spec.
  assert (Hd : deref l (apos_aviso (passo_aviso (deref l w1) w1)
                          (consulta area subarea palavras_chave) n e)
               = deref l w1).
  { apply deref_heap. simpl. exact Hh2. }
  rewrite Hd.
  destruct (chat_create env _); simpl; rewrite Hch2, Hav2, Hch, Hav;
    repeat split; by rewrite <- app_assoc.
Qed.

(** What the search returns does not depend on the world it runs in. *)
Lemma busca_resultado_independe (query : string) (n : Z) (w w0 : World) :
  fst (buscar_artigos_crossref env query n w)
  = fst (buscar_artigos_crossref env query n w0).
Proof.
  destruct (String.eqb query "") eqn:Hq.
  - unfold buscar_artigos_crossref. by rewrite Hq.
  - apply String.eqb_neq in Hq.
    rewrite !(buscar_artigos_crossref_spec env query n _ Hq).
    match goal with
    | |- context [match ?r with Ok _ => _ | Raise _ => _ end] =>
        by destruct r
    end.
Qed.

(** X21: when the pipeline returns, the three results belong together:
    the frame is the one the filter returns for the area and the
    sub-topic; the articles are the whole list the search returns, in any
    world, for the area, the sub-topic and the keywords joined by spaces,
    and the empty list when the keywords are blank; and the report is the
    answer of the service to the one message list sent, which is built from
    exactly that frame and those articles. *)
Theorem pipeline_compoe (area subarea palavras_chave : string) (n : Z)
    (w : World) (l : loc) (artigos : list artigo) (relatorio : string) :
  fst (pipeline env area subarea palavras_chave n w)
  = Ok (l, artigos, relatorio) ->
  let w' := snd (pipeline env area subarea palavras_chave n w) in
  exists out,
    run_filtrar env area (Some subarea) w = Ok out /\
    deref l w' = out /\
    let payload :=
      montar_mensagens area (Some subarea) out artigos (Some palavras_chave) in
    chats w' = chats w ++ [payload] /\
    chat_create env payload = Ok relatorio /\
    (if negb (String.eqb (str_strip palavras_chave) "")
     then forall w0,
            fst (buscar_artigos_crossref env
                   (area +:+ " " +:+ subarea +:+ " " +:+ palavras_chave) n w0)
            = Ok artigos
     else artigos = []).
Proof.
  intros Hok w'. subst w'. rewrite pipeline_spec in *.
  unfold run_filtrar.
  destruct (filtrar_revistas_mundo env area (Some subarea) w)
    as (_ & _ & Hch & _).
  destruct (filtrar_revistas env area (Some subarea) w) as [[l'|e'] w1];
    simpl in Hch; [|discriminate].
  destruct (passo_aviso_mundo (deref l' w1) w1) as (_ & Hh2 & _ & Hch2 & _).
  destruct (passo_busca_mundo area subarea palavras_chave n
              (passo_aviso (deref l' w1) w1)) as (_ & Hh3 & Hch3 & _ & _).
  assert (Harts : forall arts,
            fst (passo_busca env area subarea palavras_chave n
                   (passo_aviso (deref l' w1) w1)) = Ok arts ->
            if negb (String.eqb (str_strip palavras_chave) "")
            then forall w0,
                   fst (buscar_artigos_crossref env
                          (area +:+ " " +:+ subarea +:+ " " +:+ palavras_chave)
                          n w0) = Ok arts
            else arts = []).
  { unfold passo_busca. destruct (negb _).
    - intros arts Ha w0. rewrite <- Ha. apply busca_resultado_independe.
    - by intros arts [= <-]. }
  destruct (passo_busca env area subarea palavras_chave n _)
    as [[arts|e] w3]; simpl in Hh3, Hch3, Harts; [|discriminate].
  rewrite gerar_relatorio_ia_spec in *.
  assert (Hd : deref l' w3 = deref l' w1).
  { apply deref_heap. congruence. }
  rewrite Hd in *.
  destruct (chat_create env
              (montar_mensagens area (Some subarea) (deref l' w1) arts
                 (Some palavras_chave))) as [rel|e] eqn:Hchat;
    simpl in Hok; [|discriminate].
  inversion Hok; subst. exists (deref l w1). split; [reflexivity|].
  cbn [snd chats].
  split; [apply deref_heap; simpl; congruence|].
  split; [by rewrite Hch3, Hch2, Hch|]. split; [exact Hchat|]. by apply Harts.
Qed.

(** X22: when the filter returns a frame, the pipeline shows the warning
    of an empty result exactly when the frame is empty, before anything
    the search may show; it does not stop there: with blank keywords the
    service is still called, once, with that frame and no articles. *)
Theorem pipeline_resultado_vazio (area subarea palavras_chave : string)
    (n : Z) (w : World) (out : DataFrame) :
  run_filtrar env area (Some subarea) w = Ok out ->
  let w' := snd (pipeline env area subarea palavras_chave n w) in
  (exists rest,
      avisos w'
      = avisos w ++ (if frame_empty out then [AvisoSemRevistas] else []) ++ rest /\
      (rest = [] \/ exists e, rest = [AvisoCrossref e])) /\
  (str_strip palavras_chave = ""%string ->
   chats w'
   = chats w ++ [montar_mensagens area (Some subarea) out []
                   (Some palavras_chave)]).
Proof.
  intros Hout w'. subst w'. rewrite pipeline_spec. unfold run_filtrar in Hout.
  destruct (filtrar_revistas_mundo env area (Some subarea) w)
    as (_ & Hav & Hch & _).
  destruct (filtrar_revistas env area (Some subarea) w) as [[l|e'] w1];
    simpl in Hav, Hch; [|discriminate].
  inversion Hout; subst out; clear Hout.
  destruct (passo_aviso_mundo (deref l w1) w1) as (_ & Hh2 & _ & Hch2 & Hav2).
  split.
  - destruct (passo_busca_mundo area subarea palavras_chave n
                (passo_aviso (deref l w1) w1)) as (_ & _ & _ & Hav3 & _).
    destruct (passo_busca env area subarea palavras_chave n _)
      as [[arts|e] w3]; simpl in Hav3.
    + rewrite gerar_relatorio_ia_spec.
      assert (Hgoal : exists rest,
                avisos w3 = avisos w ++
                  (if frame_empty (deref l w1) then [AvisoSemRevistas] else [])
                  ++ rest /\ (rest = [] \/ exists e, rest = [AvisoCrossref e])).
      { destruct Hav3 as [H3|(e & H3 & _)]; rewrite H3, Hav2, Hav.
        - exists []. rewrite app_nil_r. by split; [|left].
        - exists [AvisoCrossref e]. rewrite <- app_assoc.
          split; [reflexivity|]. right. by exists e. }
      by destruct (chat_create env _).
    + simpl. destruct Hav3 as [H3|(e0 & H3 & Hr)]; [|discriminate].
      rewrite H3, Hav2, Hav. exists []. rewrite app_nil_r. by split; [|left].
  - intros Hkw. unfold passo_busca. rewrite Hkw.
    change (negb (String.eqb "" "")) with false. cbv iota.
    rewrite gerar_relatorio_ia_spec.
    rewrite (deref_heap l w1 _ Hh2).
    destruct (chat_create env _); simpl; by rewrite Hch2, Hch.
Qed.

(** X23: the pipeline only adds: the objects that were in the heap are as
    they were, the requests made, the warnings shown and the messages sent
    before it are still there in front of the new ones, and a cache that
    held what the file gives still does. *)
Theorem pipeline_so_acrescenta (area subarea palavras_chave : string) (n : Z)
    (w : World) :
  let w' := snd (pipeline env area subarea palavras_chave n w) in
  take (length (heap w)) (heap w') = heap w /\
  requests w `prefix_of` requests w' /\
  avisos w `prefix_of` avisos w' /\
  chats w `prefix_of` chats w' /\
  (coerente env w -> coerente env w').
Proof.
  intros w'. split; [|split; [|split; [|split]]];
    [| | | |by apply coerente_pipeline]; subst w'; rewrite pipeline_spec;
    destruct (filtrar_revistas_mundo env area (Some subarea) w)
      as (Hreq & Hav & Hch & objs & Hheap);
    destruct (filtrar_revistas env area (Some subarea) w) as [[l|e'] w1];
    simpl in Hreq, Hav, Hch, Hheap;
    try (destruct (passo_aviso_mundo (deref l w1) w1)
           as (_ & Hh2 & Hreq2 & Hch2 & Hav2);
         destruct (passo_busca_mundo area subarea palavras_chave n
                     (passo_aviso (deref l w1) w1))
           as (_ & Hh3 & Hch3 & Hav3 & Hreq3);
         destruct (passo_busca env area subarea palavras_chave n _)
           as [[arts|e] w3]; simpl in Hh3, Hch3, Hav3, Hreq3;
         try rewrite gerar_relatorio_ia_spec;
         try destruct (chat_create env _)); simpl.
  all: try (rewrite ?Hh3, ?Hh2, Hheap; by rewrite take_app_length).
  all: try (destruct Hreq3 as [H3|H3]; rewrite H3, Hreq2, Hreq;
            (reflexivity || by eexists)).
  all: try (destruct Hav3 as [H3|(e0 & H3 & _)]; rewrite H3, Hav2, Hav;
            rewrite <- ?app_assoc; by eexists).
  all: try (rewrite ?Hch3, ?Hch2, Hch; (reflexivity || by eexists)).
  all: try (rewrite Hreq; reflexivity).
  all: try (rewrite Hav; reflexivity).
Qed.

End PipelineFim.

(** ** The pipeline on the example catalog *)

Lemma pipeline_sem_palavras_chave_witness :
  let r := pipeline (RT := runtime_exemplo) env_tres_itens "Engenharia" "" "  "
             5 mundo_inicial in
  requests (snd r) = requests mundo_inicial /\
  forall l artigos relatorio,
    fst r = Ok (l, artigos, relatorio) -> artigos = [].
Proof.
  exact (pipeline_sem_palavras_chave (RT := runtime_exemplo) env_tres_itens
           "Engenharia" "" "  " 5 mundo_inicial eq_refl).
Defined.

Lemma pipeline_uma_consulta_witness :
  requests (snd (pipeline (RT := runtime_exemplo) env_tres_itens "Engenharia"
                   "solo" "agua" 5 mundo_inicial))
  = requests mundo_inicial ++ [("Engenharia solo agua"%string, 5%Z)].
Proof.
  refine (pipeline_uma_consulta (RT := runtime_exemplo) env_tres_itens
            "Engenharia" "solo" "agua" 5 mundo_inicial 3 _ eq_refl).
  discriminate.
Defined.

Lemma pipeline_busca_falha_witness :
  let r := pipeline (RT := runtime_exemplo) env_catalogo "Engenharia" "agua"
             "potável" 5 mundo_inicial in
  let payload :=
    montar_mensagens (RT := runtime_exemplo) "Engenharia" (Some "agua"%string)
      filtrado_agua [] (Some "potável"%string) in
  fst r = Ok (3, [], "relatorio"%string) /\
  chats (snd r) = [payload] /\
  avisos (snd r) = [AvisoCrossref (RequestException "offline")].
Proof.
  refine (pipeline_busca_falha (RT := runtime_exemplo) env_catalogo "Engenharia"
            "agua" "potável" 5 mundo_inicial 3
            (RequestException "offline") _ eq_refl eq_refl).
  discriminate.
Defined.

Lemma pipeline_compoe_witness :
  let w' := snd (pipeline (RT := runtime_exemplo) env_tres_itens "Engenharia"
                   "agua" "potável" 5 mundo_inicial) in
  exists out,
    run_filtrar (RT := runtime_exemplo) env_tres_itens "Engenharia"
      (Some "agua"%string) mundo_inicial = Ok out /\
    deref 3 w' = out /\
    let payload :=
      montar_mensagens (RT := runtime_exemplo) "Engenharia"
        (Some "agua"%string) out tres_artigos (Some "potável"%string) in
    chats w' = chats mundo_inicial ++ [payload] /\
    chat_create env_tres_itens payload = Ok "relatorio"%string /\
    (if negb (String.eqb (str_strip (Runtime := runtime_exemplo) "potável") "")
     then forall w0,
            fst (buscar_artigos_crossref (RT := runtime_exemplo) env_tres_itens
                   ("Engenharia" +:+ " " +:+ "agua" +:+ " " +:+ "potável") 5 w0)
            = Ok tres_artigos
     else tres_artigos = []).
Proof.
  exact (pipeline_compoe (RT := runtime_exemplo) env_tres_itens "Engenharia"
           "agua" "potável" 5 mundo_inicial 3 tres_artigos "relatorio" eq_refl).
Defined.

Lemma pipeline_resultado_vazio_witness :
  let out := {| columns := columns catalogo_normalizado; rows := [] |} in
  let w' := snd (pipeline (RT := runtime_exemplo) env_catalogo "Medicina" "" ""
                   5 mundo_inicial) in
  (exists rest,
      avisos w'
      = avisos mundo_inicial ++
        (if frame_empty out then [AvisoSemRevistas] else []) ++ rest /\
      (rest = [] \/ exists e, rest = [AvisoCrossref e])) /\
  (str_strip (Runtime := runtime_exemplo) "" = ""%string ->
   chats w'
   = chats mundo_inicial ++
     [montar_mensagens (RT := runtime_exemplo) "Medicina" (Some ""%string) out []
        (Some ""%string)]).
Proof.
  exact (pipeline_resultado_vazio (RT := runtime_exemplo) env_catalogo
           "Medicina" "" "" 5 mundo_inicial
           {| columns := columns catalogo_normalizado; rows := [] |} eq_refl).
Defined.

Lemma pipeline_so_acrescenta_witness :
  coerente (RT := runtime_exemplo) env_catalogo
    (snd (pipeline (RT := runtime_exemplo) env_catalogo "Engenharia" "agua"
            "potável" 5 mundo_inicial)).
Proof.
  destruct (pipeline_so_acrescenta (RT := runtime_exemplo) env_catalogo
              "Engenharia" "agua" "potável" 5 mundo_inicial)
    as (_ & _ & _ & _ & Hc).
  apply Hc. exact I.
Defined.
